(** * bare-mpv: the libmpv binding of peartube, as a shallow embedding

    The source is [packages/bare-mpv/binding.cc]: ten functions exported to
    script code, each of which unboxes its arguments, calls libmpv and boxes
    the result.  libmpv and the script runtime are foreign code; they are
    represented by an [oracle] that answers every foreign call from the
    history of native calls made so far.  The functions of the binding
    themselves are translated statement by statement into a state-and-fault
    monad over a [world] holding the script runtime's array buffers, the C
    heap, the log of native calls and the errors thrown to script code. *)

From Stdlib Require Import ZArith Lia String Ascii Strings.Byte List Bool.
From Stdlib Require Import PrimFloat FloatOps Uint63.
From stdpp Require Import base option gmap list strings.

Local Open Scope Z_scope.

(** ** C scalars *)

(** [int] is 32 bits wide, two's complement; [size_t] is 64 bits wide. *)
Definition wrap_int (z : Z) : Z := (z + 2 ^ 31) mod 2 ^ 32 - 2 ^ 31.
Definition int_mul (a b : Z) : Z := wrap_int (a * b).
Definition to_size_t (z : Z) : Z := z mod 2 ^ 64.
Definition to_uint32 (z : Z) : Z := z mod 2 ^ 32.

(** [double] is an IEEE-754 binary64; the binding only moves such values. *)
Definition double := float.

Definition Z_to_double (z : Z) : double :=
  if z <? 0 then PrimFloat.opp (PrimFloat.of_uint63 (Uint63.of_Z (- z)))
  else PrimFloat.of_uint63 (Uint63.of_Z z).

(** The integer part of a double, and the script runtime's conversion of a
    number to a 32-bit integer (truncate, then wrap). *)
Definition double_trunc (d : double) : Z :=
  match Prim2SF d with
  | SpecFloat.S754_finite s m e =>
      let mag := if 0 <=? e then Z.pos m * 2 ^ e else Z.pos m / 2 ^ (- e) in
      if s then - mag else mag
  | _ => 0
  end.

Definition double_to_int32 (d : double) : Z := wrap_int (double_trunc d).

(** A C string ends at its first NUL: [c_str] is what a callee reading a
    [const char *] sees of a byte string. *)
Fixpoint c_str (s : string) : string :=
  match s with
  | EmptyString => EmptyString
  | String c rest =>
      if Ascii.eqb c Ascii.zero then EmptyString else String c (c_str rest)
  end.

(** Pointers into native memory; [None] is the null pointer. *)
Definition addr := positive.
Definition ptr := option addr.
Definition NULL {A : Type} : option A := None.

Definition is_null {A : Type} (p : option A) : bool :=
  match p with None => true | Some _ => false end.

(** ** The two handle records of the binding *)

Record bare_mpv_handle_t := { mpv : ptr }.

Record bare_mpv_render_t := {
  ctx : ptr;
  width : Z;
  height : Z;
  buffer : ptr
}.

(** [sizeof] of the two records on an LP64 target. *)
Definition sizeof_bare_mpv_handle_t : Z := 8.
Definition sizeof_bare_mpv_render_t : Z := 24.

(** ** Script values *)

Inductive js_value_type_t :=
| js_undefined | js_null | js_boolean | js_number | js_string
| js_symbol | js_object | js_function | js_external | js_bigint.

#[warnings="-register-all"]
Inductive js_value :=
| JsUndefined
| JsNull
| JsBoolean (b : bool)
| JsNumber (d : double)
| JsString (s : string)
| JsSymbol
| JsObject
| JsFunction
| JsExternal
| JsBigint (z : Z)
| JsArray (elems : list js_value)
| JsArrayBuffer (id : nat)
| JsUint8Array (id : nat) (offset len : Z).

(** What an exported function hands back: a [js_value_t *], possibly null.
    The runtime shows a null return to script code as [undefined]. *)
Definition js_result := option js_value.

Definition script_view (r : js_result) : js_value :=
  match r with
  | None => JsUndefined
  | Some v => v
  end.

(** The arguments of one invocation, with the status that
    [js_get_callback_info] reports when the binding asks for them. *)
Record js_callback_info_t := {
  cb_status : Z;
  cb_args : list js_value
}.

Definition call_info (args : list js_value) : js_callback_info_t :=
  {| cb_status := 0; cb_args := args |}.

(** ** Native calls *)

Inductive mpv_format := MPV_FORMAT_STRING | MPV_FORMAT_FLAG | MPV_FORMAT_DOUBLE.

Inductive mpv_data :=
| Data_double (d : double)
| Data_flag (flag : Z).

(** Every call that leaves the binding for libmpv or the C allocator. *)
Inductive native_call :=
| Mpv_create
| Mpv_destroy (h : ptr)
| Mpv_set_option_string (h : ptr) (name value : string)
| Mpv_initialize (h : ptr)
| Mpv_terminate_destroy (h : ptr)
| Mpv_command (h : ptr) (args : list string)
| Mpv_get_property (h : ptr) (name : string) (format : mpv_format)
| Mpv_set_property (h : ptr) (name : string) (format : mpv_format) (data : mpv_data)
| Mpv_set_property_string (h : ptr) (name value : string)
| Mpv_free (s : string)
| Mpv_render_context_create (h : ptr)
| Mpv_render_context_render (c : ptr) (w h pitch : Z) (pixels : ptr)
| Mpv_render_context_free (c : ptr)
| Mpv_render_context_update (c : ptr)
| Malloc (size : Z)
| Free (p : ptr).

Definition history := list native_call.

(** ** The world the binding runs in *)

Inductive block :=
| Engine_block (h : bare_mpv_handle_t)
| Render_block (r : bare_mpv_render_t)
| Bytes_block (bytes : list byte).

Record world := {
  arraybuffers : gmap nat block;
  heap : gmap addr (list byte);
  trace : history;
  thrown : list string
}.

Definition empty_world : world :=
  {| arraybuffers := ∅; heap := ∅; trace := []; thrown := [] |}.

Definition set_arraybuffers (f : gmap nat block -> gmap nat block) (w : world) : world :=
  {| arraybuffers := f (arraybuffers w); heap := heap w;
     trace := trace w; thrown := thrown w |}.

Definition set_heap (f : gmap addr (list byte) -> gmap addr (list byte)) (w : world) : world :=
  {| arraybuffers := arraybuffers w; heap := f (heap w);
     trace := trace w; thrown := thrown w |}.

Definition log (c : native_call) (w : world) : world :=
  {| arraybuffers := arraybuffers w; heap := heap w;
     trace := trace w ++ [c]; thrown := thrown w |}.

Definition throw (msg : string) (w : world) : world :=
  {| arraybuffers := arraybuffers w; heap := heap w;
     trace := trace w; thrown := thrown w ++ [msg] |}.

(** ** Foreign code

    One answer per foreign function whose result the binding reads, as a
    function of the native calls made before it and of its arguments. *)
Record oracle := {
  lib_mpv_create : history -> ptr;
  lib_mpv_initialize : history -> ptr -> Z;
  lib_mpv_command : history -> ptr -> list string -> Z;
  lib_mpv_get_property_double : history -> ptr -> string -> Z * double;
  lib_mpv_get_property_flag : history -> ptr -> string -> Z * Z;
  lib_mpv_get_property_string : history -> ptr -> string -> Z * option string;
  lib_mpv_set_property : history -> ptr -> string -> mpv_data -> Z;
  lib_mpv_set_property_string : history -> ptr -> string -> string -> Z;
  lib_mpv_render_context_create : history -> ptr -> Z * ptr;
  lib_mpv_render_context_render :
    history -> ptr -> Z -> Z -> Z -> list byte -> Z * list byte;
  lib_mpv_render_context_update : history -> ptr -> Z;
  lib_malloc : history -> Z -> option (list byte);
  rt_create_arraybuffer : history -> Z -> Z;
  rt_create_typedarray : history -> Z -> Z
}.

(** ** The monad: state, with a fault for undefined behaviour *)

Definition M (A : Type) : Type := world -> option (A * world).

Definition ret {A : Type} (a : A) : M A := fun w => Some (a, w).

Definition bind {A B : Type} (m : M A) (k : A -> M B) : M B :=
  fun w => match m w with
           | Some (a, w') => k a w'
           | None => None
           end.

Definition undefined_behaviour {A : Type} : M A := fun _ => None.

Definition modify (f : world -> world) : M unit := fun w => Some (tt, f w).

Declare Scope adapter_scope.
Delimit Scope adapter_scope with adapter.
Notation "'let*' x ':=' m 'in' k" := (bind m (fun x => k))
  (at level 10, x name, m at level 100, k at level 200) : adapter_scope.
Notation "'let*' ' p ':=' m 'in' k" :=
  (bind m (fun x => match x with p => k end))
  (at level 10, p pattern, m at level 100, k at level 200) : adapter_scope.
Notation "m ';;' k" := (bind m (fun _ => k))
  (at level 100, k at level 200, right associativity) : adapter_scope.
Local Open Scope adapter_scope.

Definition nonzero (z : Z) : bool := negb (z =? 0).

(** ** Foreign functions, as the binding calls them *)

Section Binding.

Variable orc : oracle.

(** A native call that touches no memory of the binding: it is logged and
    answered by the oracle. *)
Definition native {A : Type} (c : native_call) (answer : history -> A) : M A :=
  fun w => Some (answer (trace w), log c w).

(** *** libmpv: client API *)

Definition mpv_create : M ptr :=
  native Mpv_create (lib_mpv_create orc).

Definition mpv_destroy (h : ptr) : M unit :=
  native (Mpv_destroy h) (fun _ => tt).

Definition mpv_set_option_string (h : ptr) (name value : string) : M unit :=
  native (Mpv_set_option_string h name value) (fun _ => tt).

Definition mpv_initialize (h : ptr) : M Z :=
  native (Mpv_initialize h) (fun t => lib_mpv_initialize orc t h).

Definition mpv_terminate_destroy (h : ptr) : M unit :=
  native (Mpv_terminate_destroy h) (fun _ => tt).

Definition mpv_command (h : ptr) (args : list string) : M Z :=
  native (Mpv_command h args) (fun t => lib_mpv_command orc t h args).

Definition mpv_get_property_double (h : ptr) (name : string) : M (Z * double) :=
  native (Mpv_get_property h name MPV_FORMAT_DOUBLE)
         (fun t => lib_mpv_get_property_double orc t h name).

Definition mpv_get_property_flag (h : ptr) (name : string) : M (Z * Z) :=
  native (Mpv_get_property h name MPV_FORMAT_FLAG)
         (fun t => lib_mpv_get_property_flag orc t h name).

Definition mpv_get_property_string (h : ptr) (name : string) : M (Z * option string) :=
  native (Mpv_get_property h name MPV_FORMAT_STRING)
         (fun t => lib_mpv_get_property_string orc t h name).

Definition mpv_set_property (h : ptr) (name : string) (format : mpv_format)
    (data : mpv_data) : M Z :=
  native (Mpv_set_property h name format data)
         (fun t => lib_mpv_set_property orc t h name data).

Definition mpv_set_property_string (h : ptr) (name value : string) : M Z :=
  native (Mpv_set_property_string h name value)
         (fun t => lib_mpv_set_property_string orc t h name value).

Definition mpv_free (s : string) : M unit :=
  native (Mpv_free s) (fun _ => tt).

(** *** libmpv: render API *)

(** Modelled from the spec: [MPV_RENDER_UPDATE_FRAME], which libmpv's
    [render.h] declares and the sources only use: the update flag that says
    a new frame is ready to be rendered, bit 0 of the flag word. *)
Definition MPV_RENDER_UPDATE_FRAME : Z := 1.

Definition mpv_render_context_create (h : ptr) : M (Z * ptr) :=
  native (Mpv_render_context_create h)
         (fun t => lib_mpv_render_context_create orc t h).

(** What the engine leaves in a pixel buffer: its output, laid over the
    old contents from the first byte on and cut at the buffer's end. *)
Definition overwrite (pixels old : list byte) : list byte :=
  take (length old) (pixels ++ drop (length pixels) old).

(** The software render call writes through the [MPV_RENDER_PARAM_SW_POINTER]
    parameter; a pointer that is not a live allocation is a fault. *)
Definition mpv_render_context_render (c : ptr) (w h pitch : Z) (pixels : ptr) : M Z :=
  fun s =>
    match pixels with
    | None => None
    | Some a =>
        match heap s !! a with
        | None => None
        | Some old =>
            let '(status, out) :=
              lib_mpv_render_context_render orc (trace s) c w h pitch old in
            Some (status,
                  log (Mpv_render_context_render c w h pitch pixels)
                      (set_heap (insert a (overwrite out old)) s))
        end
    end.

Definition mpv_render_context_free (c : ptr) : M unit :=
  native (Mpv_render_context_free c) (fun _ => tt).

Definition mpv_render_context_update (c : ptr) : M Z :=
  native (Mpv_render_context_update c)
         (fun t => lib_mpv_render_context_update orc t c).

(** *** The C library *)

(** [malloc] hands out an address that is not in use, holding [size] bytes
    of whatever the allocator left there, or the null pointer. *)
Definition malloc (size : Z) : M ptr :=
  fun w =>
    match lib_malloc orc (trace w) size with
    | None => Some (NULL, log (Malloc size) w)
    | Some garbage =>
        let a := fresh (dom (heap w)) in
        Some (Some a,
              log (Malloc size)
                  (set_heap (insert a (resize (Z.to_nat size) x00 garbage)) w))
    end.

(** [free] of a pointer that is not a live allocation is a fault. *)
Definition free (p : ptr) : M unit :=
  fun w =>
    match p with
    | None => Some (tt, log (Free p) w)
    | Some a =>
        match heap w !! a with
        | None => None
        | Some _ => Some (tt, log (Free p) (set_heap (delete a) w))
        end
    end.

(** [memcpy] from a heap allocation into the store of an array buffer;
    reading or writing past either end is a fault. *)
Definition memcpy (data : nat) (src : ptr) (n : Z) : M unit :=
  fun w =>
    match src with
    | None => None
    | Some a =>
        match heap w !! a, arraybuffers w !! data with
        | Some from, Some (Bytes_block to) =>
            if (n <=? Z.of_nat (length from)) && (n <=? Z.of_nat (length to))
            then Some (tt, set_arraybuffers
                             (insert data (Bytes_block (take (Z.to_nat n) from
                                                        ++ drop (Z.to_nat n) to))) w)
            else None
        | _, _ => None
        end
    end.

(** *** The script runtime *)

Definition js_get_callback_info (info : js_callback_info_t) (argc : nat)
    : Z * list js_value :=
  (cb_status info, take argc (cb_args info ++ replicate argc JsUndefined)).

Definition arg (argv : list js_value) (i : nat) : js_value :=
  nth i argv JsUndefined.

(** The backing store of an array buffer; any other value is refused. *)
Definition js_get_arraybuffer_info (v : js_value) : Z * nat :=
  match v with
  | JsArrayBuffer id => (0, id)
  | _ => (-1, 0%nat)
  end.

Definition js_get_array_length (v : js_value) : Z * Z :=
  match v with
  | JsArray elems => (0, to_uint32 (Z.of_nat (length elems)))
  | _ => (-1, 0)
  end.

Definition js_get_element (v : js_value) (i : nat) : js_value :=
  match v with
  | JsArray elems => nth i elems JsUndefined
  | _ => JsUndefined
  end.

Definition js_typeof (v : js_value) : js_value_type_t :=
  match v with
  | JsUndefined => js_undefined
  | JsNull => js_null
  | JsBoolean _ => js_boolean
  | JsNumber _ => js_number
  | JsString _ => js_string
  | JsSymbol => js_symbol
  | JsObject => js_object
  | JsFunction => js_function
  | JsExternal => js_external
  | JsBigint _ => js_bigint
  | JsArray _ => js_object
  | JsArrayBuffer _ => js_object
  | JsUint8Array _ _ _ => js_object
  end.

(** The binding never tests the status of the four unboxing calls below.
    On a value of another type they leave their output unset, and the
    binding goes on to read it: a fault. *)
Definition js_get_value_string_utf8 (v : js_value) : M string :=
  match v with
  | JsString s => ret s
  | _ => undefined_behaviour
  end.

Definition js_get_value_double (v : js_value) : M double :=
  match v with
  | JsNumber d => ret d
  | _ => undefined_behaviour
  end.

Definition js_get_value_bool (v : js_value) : M bool :=
  match v with
  | JsBoolean b => ret b
  | _ => undefined_behaviour
  end.

Definition js_get_value_int32 (v : js_value) : M Z :=
  match v with
  | JsNumber d => ret (double_to_int32 d)
  | _ => undefined_behaviour
  end.

Definition js_create_int32 (z : Z) : js_value := JsNumber (Z_to_double z).
Definition js_create_double (d : double) : js_value := JsNumber d.
Definition js_get_boolean (b : bool) : js_value := JsBoolean b.
Definition js_create_string_utf8 (s : string) : js_value := JsString s.
Definition js_get_undefined : js_value := JsUndefined.
Definition js_get_null : js_value := JsNull.

(** A new array buffer gets an identifier not in use and [size] zero bytes. *)
Definition js_create_arraybuffer (size : Z) : M (Z * nat * js_value) :=
  fun w =>
    let err := rt_create_arraybuffer orc (trace w) size in
    if nonzero err then Some ((err, 0%nat, JsUndefined), w)
    else
      let id := fresh (dom (arraybuffers w)) in
      Some ((0, id, JsArrayBuffer id),
            set_arraybuffers
              (insert id (Bytes_block (replicate (Z.to_nat size) x00))) w).

Definition js_create_typedarray (len : Z) (arraybuffer : js_value) (offset : Z)
    : M (Z * js_value) :=
  fun w =>
    let err := rt_create_typedarray orc (trace w) len in
    if nonzero err then Some ((err, JsUndefined), w)
    else
      match arraybuffer with
      | JsArrayBuffer id => Some ((0, JsUint8Array id offset len), w)
      | _ => None
      end.

Definition js_throw_error (msg : string) : M unit :=
  modify (throw msg).

(** *** Reading and writing a handle record through its pointer *)

Definition load_engine (handle : nat) : M bare_mpv_handle_t :=
  fun w =>
    match arraybuffers w !! handle with
    | Some (Engine_block h) => Some (h, w)
    | _ => None
    end.

Definition load_render (handle : nat) : M bare_mpv_render_t :=
  fun w =>
    match arraybuffers w !! handle with
    | Some (Render_block r) => Some (r, w)
    | _ => None
    end.

Definition store_block (handle : nat) (b : block) : M unit :=
  fun w =>
    match arraybuffers w !! handle with
    | Some _ => Some (tt, set_arraybuffers (insert handle b) w)
    | None => None
    end.

Definition with_ctx (c : ptr) (r : bare_mpv_render_t) : bare_mpv_render_t :=
  {| ctx := c; width := width r; height := height r; buffer := buffer r |}.

Definition with_buffer (b : ptr) (r : bare_mpv_render_t) : bare_mpv_render_t :=
  {| ctx := ctx r; width := width r; height := height r; buffer := b |}.

(** ** The exported functions *)

(** [bare_mpv_create]: the callback info is not read. *)
Definition bare_mpv_create (info : js_callback_info_t) : M js_result :=
  let* mpv := mpv_create in
  if is_null mpv then
    js_throw_error "Failed to create mpv instance";;
    ret NULL
  else
    let* '(err, handle, result) := js_create_arraybuffer sizeof_bare_mpv_handle_t in
    if nonzero err then
      mpv_destroy mpv;;
      ret NULL
    else
      store_block handle (Engine_block {| mpv := mpv |});;
      ret (Some result).

Definition bare_mpv_initialize (info : js_callback_info_t) : M js_result :=
  let '(err, argv) := js_get_callback_info info 1 in
  if nonzero err then ret NULL else
  let '(err, handle) := js_get_arraybuffer_info (arg argv 0) in
  if nonzero err then ret NULL else
  let* h := load_engine handle in
  mpv_set_option_string (mpv h) "vo" "libmpv";;
  mpv_set_option_string (mpv h) "hwdec" "auto";;
  mpv_set_option_string (mpv h) "keep-open" "yes";;
  let* status := mpv_initialize (mpv h) in
  ret (Some (js_create_int32 status)).

Definition bare_mpv_destroy (info : js_callback_info_t) : M js_result :=
  let '(err, argv) := js_get_callback_info info 1 in
  if nonzero err then ret NULL else
  let '(err, handle) := js_get_arraybuffer_info (arg argv 0) in
  if nonzero err then ret NULL else
  let* h := load_engine handle in
  if negb (is_null (mpv h)) then
    mpv_terminate_destroy (mpv h);;
    store_block handle (Engine_block {| mpv := NULL |});;
    ret NULL
  else
    ret NULL.

(** The loop of [bare_mpv_command]: element [i] of the array is read as a
    UTF-8 string and passed on as a C string. *)
Fixpoint command_strings (array : js_value) (i : nat) (n : nat) : M (list string) :=
  match n with
  | O => ret []
  | S n' =>
      let elem := js_get_element array i in
      let* s := js_get_value_string_utf8 elem in
      let* rest := command_strings array (S i) n' in
      ret (c_str s :: rest)
  end.

(** [cmd_args] has [cmd_len + 1] slots, computed in [uint32_t]; the
    terminating store to slot [cmd_len] has to fall inside it. *)
Definition bare_mpv_command (info : js_callback_info_t) : M js_result :=
  let '(err, argv) := js_get_callback_info info 2 in
  if nonzero err then ret NULL else
  let '(err, handle) := js_get_arraybuffer_info (arg argv 0) in
  if nonzero err then ret NULL else
  let '(err, cmd_len) := js_get_array_length (arg argv 1) in
  if nonzero err then ret NULL else
  let slots := to_uint32 (cmd_len + 1) in
  let* cmd_strings := command_strings (arg argv 1) 0 (Z.to_nat cmd_len) in
  if slots <=? cmd_len then undefined_behaviour else
  let* h := load_engine handle in
  let* status := mpv_command (mpv h) cmd_strings in
  ret (Some (js_create_int32 status)).

Definition bare_mpv_get_property (info : js_callback_info_t) : M js_result :=
  let '(err, argv) := js_get_callback_info info 2 in
  if nonzero err then ret NULL else
  let '(err, handle) := js_get_arraybuffer_info (arg argv 0) in
  if nonzero err then ret NULL else
  let* name := js_get_value_string_utf8 (arg argv 1) in
  let* h := load_engine handle in
  let* '(status, value) := mpv_get_property_double (mpv h) (c_str name) in
  if status >=? 0 then ret (Some (js_create_double value)) else
  let* '(status, flag) := mpv_get_property_flag (mpv h) (c_str name) in
  if status >=? 0 then ret (Some (js_get_boolean (nonzero flag))) else
  let* '(status, str) := mpv_get_property_string (mpv h) (c_str name) in
  match status >=? 0, str with
  | true, Some s =>
      let result := js_create_string_utf8 (c_str s) in
      mpv_free s;;
      ret (Some result)
  | _, _ => ret (Some js_get_undefined)
  end.

Definition bare_mpv_set_property (info : js_callback_info_t) : M js_result :=
  let '(err, argv) := js_get_callback_info info 3 in
  if nonzero err then ret NULL else
  let '(err, handle) := js_get_arraybuffer_info (arg argv 0) in
  if nonzero err then ret NULL else
  let* name := js_get_value_string_utf8 (arg argv 1) in
  let value_type := js_typeof (arg argv 2) in
  let* status :=
    match value_type with
    | js_number =>
        let* value := js_get_value_double (arg argv 2) in
        let* h := load_engine handle in
        mpv_set_property (mpv h) (c_str name) MPV_FORMAT_DOUBLE (Data_double value)
    | js_boolean =>
        let* value := js_get_value_bool (arg argv 2) in
        let flag := if value then 1 else 0 in
        let* h := load_engine handle in
        mpv_set_property (mpv h) (c_str name) MPV_FORMAT_FLAG (Data_flag flag)
    | js_string =>
        let* str := js_get_value_string_utf8 (arg argv 2) in
        let* h := load_engine handle in
        mpv_set_property_string (mpv h) (c_str name) (c_str str)
    | _ => ret (-1)
    end in
  ret (Some (js_create_int32 status)).

(** The size of a frame as the source computes it: [w * h * 4] in [int],
    converted to [size_t]. *)
Definition frame_size (w h : Z) : Z := to_size_t (int_mul (int_mul w h) 4).

Definition bare_mpv_render_create (info : js_callback_info_t) : M js_result :=
  let '(err, argv) := js_get_callback_info info 3 in
  if nonzero err then ret NULL else
  let '(err, mpv_handle) := js_get_arraybuffer_info (arg argv 0) in
  if nonzero err then ret NULL else
  let* width := js_get_value_int32 (arg argv 1) in
  let* height := js_get_value_int32 (arg argv 2) in
  let* h := load_engine mpv_handle in
  let* '(status, render_ctx) := mpv_render_context_create (mpv h) in
  if status <? 0 then
    js_throw_error "Failed to create render context";;
    ret NULL
  else
    let* '(err, handle, result) := js_create_arraybuffer sizeof_bare_mpv_render_t in
    if nonzero err then
      mpv_render_context_free render_ctx;;
      ret NULL
    else
      let* pixels := malloc (frame_size width height) in
      store_block handle
        (Render_block {| ctx := render_ctx; width := width;
                         height := height; buffer := pixels |});;
      ret (Some result).

Definition bare_mpv_render_frame (info : js_callback_info_t) : M js_result :=
  let '(err, argv) := js_get_callback_info info 1 in
  if nonzero err then ret NULL else
  let '(err, handle) := js_get_arraybuffer_info (arg argv 0) in
  if nonzero err then ret NULL else
  let* r := load_render handle in
  if is_null (ctx r) || is_null (buffer r) then ret (Some js_get_null) else
  let w := width r in
  let h := height r in
  let pitch := int_mul w 4 in
  let* status := mpv_render_context_render (ctx r) w h pitch (buffer r) in
  if status <? 0 then ret (Some js_get_null) else
  let buffer_size := frame_size w h in
  let* '(err, data, arraybuffer) := js_create_arraybuffer buffer_size in
  if nonzero err then ret NULL else
  memcpy data (buffer r) buffer_size;;
  let* '(err, uint8array) := js_create_typedarray buffer_size arraybuffer 0 in
  if nonzero err then ret (Some arraybuffer) else
  ret (Some uint8array).

Definition bare_mpv_render_free (info : js_callback_info_t) : M js_result :=
  let '(err, argv) := js_get_callback_info info 1 in
  if nonzero err then ret NULL else
  let '(err, handle) := js_get_arraybuffer_info (arg argv 0) in
  if nonzero err then ret NULL else
  let* r := load_render handle in
  (if negb (is_null (ctx r)) then
     mpv_render_context_free (ctx r);;
     store_block handle (Render_block (with_ctx NULL r))
   else ret tt);;
  let* r := load_render handle in
  (if negb (is_null (buffer r)) then
     free (buffer r);;
     store_block handle (Render_block (with_buffer NULL r))
   else ret tt);;
  ret NULL.

Definition bare_mpv_render_update (info : js_callback_info_t) : M js_result :=
  let '(err, argv) := js_get_callback_info info 1 in
  if nonzero err then ret NULL else
  let '(err, handle) := js_get_arraybuffer_info (arg argv 0) in
  if nonzero err then ret NULL else
  let* r := load_render handle in
  let* flags := mpv_render_context_update (ctx r) in
  let needs_render := nonzero (Z.land flags MPV_RENDER_UPDATE_FRAME) in
  ret (Some (js_get_boolean needs_render)).

(** ** The export table of [bare_mpv_exports] *)

Inductive export :=
| create | initialize | destroy | command | getProperty | setProperty
| renderCreate | renderFrame | renderFree | renderUpdate.

Definition exported (name : export) : js_callback_info_t -> M js_result :=
  match name with
  | create => bare_mpv_create
  | initialize => bare_mpv_initialize
  | destroy => bare_mpv_destroy
  | command => bare_mpv_command
  | getProperty => bare_mpv_get_property
  | setProperty => bare_mpv_set_property
  | renderCreate => bare_mpv_render_create
  | renderFrame => bare_mpv_render_frame
  | renderFree => bare_mpv_render_free
  | renderUpdate => bare_mpv_render_update
  end.

(** A script: a sequence of calls into the binding. *)
Fixpoint run (calls : list (export * js_callback_info_t)) : M (list js_result) :=
  match calls with
  | [] => ret []
  | (name, info) :: rest =>
      let* r := exported name info in
      let* rs := run rest in
      ret (r :: rs)
  end.

End Binding.

(** ** Notions the properties are stated with *)

(** Script code storing one byte into an array buffer it holds; a store
    past the end is ignored, as typed arrays do. *)
Definition script_write (id : nat) (i : nat) (b : byte) (w : world) : world :=
  match arraybuffers w !! id with
  | Some (Bytes_block bytes) =>
      set_arraybuffers (insert id (Bytes_block (<[i := b]> bytes))) w
  | _ => w
  end.

(** The pixel buffer of a render handle, when it has one, is a live
    allocation of the size computed from the handle's dimensions. *)
Definition allocated (hp : gmap addr (list byte)) (r : bare_mpv_render_t) : bool :=
  match buffer r with
  | None => true
  | Some a =>
      match hp !! a with
      | Some pixels => Z.of_nat (length pixels) =? frame_size (width r) (height r)
      | None => false
      end
  end.

Definition buffer_ok (w : world) (r : bare_mpv_render_t) : bool :=
  allocated (heap w) r.

(** The invariant of the worlds the binding builds: every render handle's
    buffer is in order and belongs to that handle alone. *)
Definition wf_at (ab : gmap nat block) (hp : gmap addr (list byte)) : Prop :=
  forall id r,
    ab !! id = Some (Render_block r) ->
    allocated hp r = true /\
    forall id' r' a,
      ab !! id' = Some (Render_block r') ->
      buffer r = Some a -> buffer r' = Some a -> id' = id.

Definition render_wf (w : world) : Prop := wf_at (arraybuffers w) (heap w).

(** Every render handle of the first store is a render handle of the
    second, with the dimensions it had. *)
Definition dims_kept (ab ab' : gmap nat block) : Prop :=
  forall id r,
    ab !! id = Some (Render_block r) ->
    exists r', ab' !! id = Some (Render_block r')
               /\ width r' = width r /\ height r' = height r.

(** The calls [bare_mpv_render_free] makes to release what a handle holds. *)
Definition release_calls (r : bare_mpv_render_t) : history :=
  (if is_null (ctx r) then [] else [Mpv_render_context_free (ctx r)])
  ++ (if is_null (buffer r) then [] else [Free (buffer r)]).

Definition freed (r : bare_mpv_render_t) : bare_mpv_render_t :=
  {| ctx := NULL; width := width r; height := height r; buffer := NULL |}.

Definition after_free (handle : nat) (r : bare_mpv_render_t) (w : world) : world :=
  {| arraybuffers := <[handle := Render_block (freed r)]> (arraybuffers w);
     heap := match buffer r with
             | Some a => delete a (heap w)
             | None => heap w
             end;
     trace := trace w ++ release_calls r;
     thrown := thrown w |}.

(** The call [bare_mpv_destroy] makes, and the world it leaves. *)
Definition teardown_calls (h : bare_mpv_handle_t) : history :=
  if is_null (mpv h) then [] else [Mpv_terminate_destroy (mpv h)].

Definition after_destroy (handle : nat) (h : bare_mpv_handle_t) (w : world) : world :=
  {| arraybuffers := <[handle := Engine_block {| mpv := NULL |}]> (arraybuffers w);
     heap := heap w;
     trace := trace w ++ teardown_calls h;
     thrown := thrown w |}.

(** The three probes of [bare_mpv_get_property], as the engine answers them
    when they are made one after the other from a world with log [t]. *)
Section Probes.

Variable orc : oracle.
Variables (t : history) (h : ptr) (name : string).

Definition probe_double : Z * double :=
  lib_mpv_get_property_double orc t h name.

Definition probe_flag : Z * Z :=
  lib_mpv_get_property_flag orc
    (t ++ [Mpv_get_property h name MPV_FORMAT_DOUBLE]) h name.

Definition probe_string : Z * option string :=
  lib_mpv_get_property_string orc
    (t ++ [Mpv_get_property h name MPV_FORMAT_DOUBLE;
           Mpv_get_property h name MPV_FORMAT_FLAG]) h name.

End Probes.

(** The probes as native calls. *)
Definition probe_call (h : ptr) (name : string) (format : mpv_format) : native_call :=
  Mpv_get_property h name format.

(** What the specification promises of [getProperty], in its words: the
    value of the first representation the engine accepts (status >= 0), in
    the order number, boolean, string, and Absent when all three fail. *)
Definition first_accepted (d : Z * double) (f : Z * Z) (s : Z * option string)
    (v : js_value) : Prop :=
  if 0 <=? fst d then v = JsNumber (snd d)
  else if 0 <=? fst f then v = JsBoolean (nonzero (snd f))
  else if 0 <=? fst s then exists str, v = JsString str
  else v = JsUndefined.

(** The value types [bare_mpv_set_property] has a native setter for. *)
Definition supported (ty : js_value_type_t) : bool :=
  match ty with
  | js_number | js_boolean | js_string => true
  | _ => false
  end.

(** The answer of the engine to the render call [bare_mpv_render_frame]
    makes for handle [r] in world [w]. *)
Definition render_answer (orc : oracle) (w : world) (r : bare_mpv_render_t)
    : Z * list byte :=
  match buffer r with
  | Some a =>
      lib_mpv_render_context_render orc (trace w) (ctx r) (width r) (height r)
        (int_mul (width r) 4) (default [] (heap w !! a))
  | None => (-1, [])
  end.

Definition render_call (r : bare_mpv_render_t) : native_call :=
  Mpv_render_context_render (ctx r) (width r) (height r)
    (int_mul (width r) 4) (buffer r).

(** The contents of the pixel buffer of handle [r] in world [w]. *)
Definition pixels_of (w : world) (r : bare_mpv_render_t) : list byte :=
  match buffer r with
  | Some a => default [] (heap w !! a)
  | None => []
  end.

(** The world after the render call for [r]: the engine's output is in the
    pixel buffer and the call is logged. *)
Definition rendered (orc : oracle) (w : world) (r : bare_mpv_render_t) : world :=
  match buffer r with
  | Some a =>
      log (render_call r)
          (set_heap (insert a (overwrite (snd (render_answer orc w r)) (pixels_of w r))) w)
  | None => w
  end.

(** The world after a frame has been handed out in array buffer [data]. *)
Definition framed (orc : oracle) (w : world) (r : bare_mpv_render_t) (data : nat) : world :=
  set_arraybuffers
    (insert data (Bytes_block (pixels_of (rendered orc w r) r)))
    (rendered orc w r).

Definition absent (r : bare_mpv_render_t) : bool :=
  is_null (ctx r) || is_null (buffer r).




(** A frame as [bare_mpv_render_frame] hands it out: a [Uint8Array] over
    the new array buffer, or the array buffer itself when the runtime
    makes no view. *)
Definition frame_value (orc : oracle) (t : history) (size : Z) (data : nat) : js_value :=
  if nonzero (rt_create_typedarray orc t size) then JsArrayBuffer data
  else JsUint8Array data 0 size.



(** ** Engines and worlds to run the binding on *)

(** An engine that knows three properties, one per representation, and a
    fourth, ["ghost"], that it accepts as a string without a value. *)
Definition steady_engine : oracle :=
  {| lib_mpv_create := fun _ => Some 1%positive;
     lib_mpv_initialize := fun _ _ => 0;
     lib_mpv_command := fun _ _ _ => 0;
     lib_mpv_get_property_double := fun _ _ name =>
       if String.eqb name "time-pos" then (0, 1.5%float) else (-8, 0%float);
     lib_mpv_get_property_flag := fun _ _ name =>
       if String.eqb name "pause" then (0, 1) else (-8, 0);
     lib_mpv_get_property_string := fun _ _ name =>
       if String.eqb name "path" then (0, Some "test.mkv"%string)
       else if String.eqb name "ghost" then (0, None)
       else (-8, None);
     lib_mpv_set_property := fun _ _ _ _ => 0;
     lib_mpv_set_property_string := fun _ _ _ _ => 0;
     lib_mpv_render_context_create := fun _ _ => (0, Some 2%positive);
     lib_mpv_render_context_render := fun t _ _ _ _ _ =>
       (0, replicate 16 (if Nat.even (length t) then x11 else x22));
     lib_mpv_render_context_update := fun _ _ => 1;
     lib_malloc := fun _ _ => Some [];
     rt_create_arraybuffer := fun _ _ => 0;
     rt_create_typedarray := fun _ _ => 0 |}.

(** The same engine under a runtime that has no memory left for frames. *)
Definition starved_runtime : oracle :=
  {| lib_mpv_create := lib_mpv_create steady_engine;
     lib_mpv_initialize := lib_mpv_initialize steady_engine;
     lib_mpv_command := lib_mpv_command steady_engine;
     lib_mpv_get_property_double := lib_mpv_get_property_double steady_engine;
     lib_mpv_get_property_flag := lib_mpv_get_property_flag steady_engine;
     lib_mpv_get_property_string := lib_mpv_get_property_string steady_engine;
     lib_mpv_set_property := lib_mpv_set_property steady_engine;
     lib_mpv_set_property_string := lib_mpv_set_property_string steady_engine;
     lib_mpv_render_context_create := lib_mpv_render_context_create steady_engine;
     lib_mpv_render_context_render := lib_mpv_render_context_render steady_engine;
     lib_mpv_render_context_update := lib_mpv_render_context_update steady_engine;
     lib_malloc := lib_malloc steady_engine;
     rt_create_arraybuffer := fun _ size => if size =? 16 then -1 else 0;
     rt_create_typedarray := rt_create_typedarray steady_engine |}.

(** An engine that cannot be instantiated, and whose render contexts
    cannot either. *)
Definition broken_engine : oracle :=
  {| lib_mpv_create := fun _ => NULL;
     lib_mpv_initialize := fun _ _ => -1;
     lib_mpv_command := fun _ _ _ => -1;
     lib_mpv_get_property_double := fun _ _ _ => (-8, 0%float);
     lib_mpv_get_property_flag := fun _ _ _ => (-8, 0);
     lib_mpv_get_property_string := fun _ _ _ => (-8, None);
     lib_mpv_set_property := fun _ _ _ _ => -8;
     lib_mpv_set_property_string := fun _ _ _ _ => -8;
     lib_mpv_render_context_create := fun _ _ => (-1, NULL);
     lib_mpv_render_context_render := fun _ _ _ _ _ _ => (-1, []);
     lib_mpv_render_context_update := fun _ _ => 0;
     lib_malloc := fun _ _ => None;
     rt_create_arraybuffer := fun _ _ => 0;
     rt_create_typedarray := fun _ _ => 0 |}.

(** A script that builds an engine and a 2 x 2 render handle on it. *)
Definition engine_handle : js_value := JsArrayBuffer 0.
Definition render_handle : js_value := JsArrayBuffer 1.

Definition setup : list (export * js_callback_info_t) :=
  [ (create, call_info []);
    (initialize, call_info [engine_handle]);
    (renderCreate, call_info [engine_handle; JsNumber 2%float; JsNumber 2%float]) ].

Definition live_engine : bare_mpv_handle_t := {| mpv := Some 1%positive |}.

Definition live_render : bare_mpv_render_t :=
  {| ctx := Some 2%positive; width := 2; height := 2; buffer := Some 1%positive |}.

(** The world after the first two calls of [setup]: an engine, no render
    handle yet. *)
Definition engine_setup : list (export * js_callback_info_t) :=
  [ (create, call_info []); (initialize, call_info [engine_handle]) ].

Definition engine_world : world :=
  {| arraybuffers := {[ 0%nat := Engine_block live_engine ]};
     heap := ∅;
     trace :=
       [ Mpv_create;
         Mpv_set_option_string (Some 1%positive) "vo" "libmpv";
         Mpv_set_option_string (Some 1%positive) "hwdec" "auto";
         Mpv_set_option_string (Some 1%positive) "keep-open" "yes";
         Mpv_initialize (Some 1%positive) ];
     thrown := [] |}.

(** A script that uses the render handle, frees it and uses it again. *)
Definition playback : list (export * js_callback_info_t) :=
  [ (renderFrame, call_info [render_handle]);
    (renderUpdate, call_info [render_handle]);
    (renderFree, call_info [render_handle]);
    (renderFrame, call_info [render_handle]) ].

(** The world [setup] leaves under [steady_engine]. *)
Definition live_world : world :=
  {| arraybuffers :=
       {[ 0%nat := Engine_block live_engine; 1%nat := Render_block live_render ]};
     heap := {[ 1%positive := replicate 16 x00 ]};
     trace :=
       [ Mpv_create;
         Mpv_set_option_string (Some 1%positive) "vo" "libmpv";
         Mpv_set_option_string (Some 1%positive) "hwdec" "auto";
         Mpv_set_option_string (Some 1%positive) "keep-open" "yes";
         Mpv_initialize (Some 1%positive);
         Mpv_render_context_create (Some 1%positive);
         Malloc 16 ];
     thrown := [] |}.

(** The same world once the render handle has been freed. *)
Definition freed_world : world :=
  {| arraybuffers :=
       {[ 0%nat := Engine_block live_engine;
          1%nat := Render_block (freed live_render) ]};
     heap := ∅;
     trace := trace live_world
              ++ [ Mpv_render_context_free (Some 2%positive);
                   Free (Some 1%positive) ];
     thrown := [] |}.

(** ** Notions for the lifetime of handles and allocations *)

(** A pointer field either keeps its value or becomes null. *)
Definition fades (p p' : ptr) : Prop := p' = p \/ p' = NULL.

(** An array buffer keeps its kind: a frame keeps its bytes, a handle
    keeps its dimensions and its pointers fade. *)
Definition block_fades (b b' : block) : Prop :=
  match b, b' with
  | Engine_block h, Engine_block h' => fades (mpv h) (mpv h')
  | Render_block r, Render_block r' =>
      fades (ctx r) (ctx r') /\ fades (buffer r) (buffer r')
      /\ width r' = width r /\ height r' = height r
  | Bytes_block bytes, Bytes_block bytes' => bytes' = bytes
  | _, _ => False
  end.

Definition store_fades (ab ab' : gmap nat block) : Prop :=
  forall id b, ab !! id = Some b -> exists b', ab' !! id = Some b' /\ block_fades b b'.

(** Every live allocation of the C heap is the pixel buffer of a render
    handle. *)
Definition owned_at (ab : gmap nat block) (hp : gmap addr (list byte)) : Prop :=
  forall a pixels,
    hp !! a = Some pixels ->
    exists id r, ab !! id = Some (Render_block r) /\ buffer r = Some a.

(** The most native calls one invocation of an exported function makes. *)
Definition native_budget (name : export) : nat :=
  match name with
  | create => 2
  | initialize => 4
  | destroy => 1
  | command => 1
  | getProperty => 4
  | setProperty => 1
  | renderCreate => 2
  | renderFrame => 1
  | renderFree => 2
  | renderUpdate => 1
  end.

(** The world [bare_mpv_create] leaves when the engine exists and the
    runtime provides the handle, and the one it leaves when the runtime
    does not. *)
Definition after_create (e : addr) (w : world) : world :=
  set_arraybuffers
    (insert (fresh (dom (arraybuffers w))) (Engine_block {| mpv := Some e |}))
    (log Mpv_create w).

Definition after_failed_create (e : addr) (w : world) : world :=
  log (Mpv_destroy (Some e)) (log Mpv_create w).

(** ** The module's export object

    [bare_mpv_exports] binds each name with the [EXPORT_FUNCTION] macro:
    the function object is created, and the property is set only when that
    succeeded.  The status of [js_create_function] for a name is an input. *)
Definition js_set_named_property (exports : gmap string export) (name : string)
    (fn : export) : gmap string export :=
  <[name := fn]> exports.

Definition EXPORT_FUNCTION (js_create_function : string -> Z) (name : string)
    (fn : export) (exports : gmap string export) : gmap string export :=
  let err := js_create_function name in
  if err =? 0 then js_set_named_property exports name fn else exports.

Definition bare_mpv_exports (js_create_function : string -> Z)
    (exports : gmap string export) : gmap string export :=
  let exports := EXPORT_FUNCTION js_create_function "create" create exports in
  let exports := EXPORT_FUNCTION js_create_function "initialize" initialize exports in
  let exports := EXPORT_FUNCTION js_create_function "destroy" destroy exports in
  let exports := EXPORT_FUNCTION js_create_function "command" command exports in
  let exports := EXPORT_FUNCTION js_create_function "getProperty" getProperty exports in
  let exports := EXPORT_FUNCTION js_create_function "setProperty" setProperty exports in
  let exports := EXPORT_FUNCTION js_create_function "renderCreate" renderCreate exports in
  let exports := EXPORT_FUNCTION js_create_function "renderFrame" renderFrame exports in
  let exports := EXPORT_FUNCTION js_create_function "renderFree" renderFree exports in
  let exports := EXPORT_FUNCTION js_create_function "renderUpdate" renderUpdate exports in
  exports.

(** The name under which the module exports each function. *)
Definition export_name (fn : export) : string :=
  match fn with
  | create => "create"
  | initialize => "initialize"
  | destroy => "destroy"
  | command => "command"
  | getProperty => "getProperty"
  | setProperty => "setProperty"
  | renderCreate => "renderCreate"
  | renderFrame => "renderFrame"
  | renderFree => "renderFree"
  | renderUpdate => "renderUpdate"
  end.

(** ** More engines to run the binding on *)

(** [steady_engine] on a machine whose allocator has nothing to give. *)
Definition exhausted_allocator : oracle :=
  {| lib_mpv_create := lib_mpv_create steady_engine;
     lib_mpv_initialize := lib_mpv_initialize steady_engine;
     lib_mpv_command := lib_mpv_command steady_engine;
     lib_mpv_get_property_double := lib_mpv_get_property_double steady_engine;
     lib_mpv_get_property_flag := lib_mpv_get_property_flag steady_engine;
     lib_mpv_get_property_string := lib_mpv_get_property_string steady_engine;
     lib_mpv_set_property := lib_mpv_set_property steady_engine;
     lib_mpv_set_property_string := lib_mpv_set_property_string steady_engine;
     lib_mpv_render_context_create := lib_mpv_render_context_create steady_engine;
     lib_mpv_render_context_render := lib_mpv_render_context_render steady_engine;
     lib_mpv_render_context_update := lib_mpv_render_context_update steady_engine;
     lib_malloc := fun _ _ => None;
     rt_create_arraybuffer := rt_create_arraybuffer steady_engine;
     rt_create_typedarray := rt_create_typedarray steady_engine |}.

(** [steady_engine] under a runtime that creates no array buffer at all. *)
Definition refusing_runtime : oracle :=
  {| lib_mpv_create := lib_mpv_create steady_engine;
     lib_mpv_initialize := lib_mpv_initialize steady_engine;
     lib_mpv_command := lib_mpv_command steady_engine;
     lib_mpv_get_property_double := lib_mpv_get_property_double steady_engine;
     lib_mpv_get_property_flag := lib_mpv_get_property_flag steady_engine;
     lib_mpv_get_property_string := lib_mpv_get_property_string steady_engine;
     lib_mpv_set_property := lib_mpv_set_property steady_engine;
     lib_mpv_set_property_string := lib_mpv_set_property_string steady_engine;
     lib_mpv_render_context_create := lib_mpv_render_context_create steady_engine;
     lib_mpv_render_context_render := lib_mpv_render_context_render steady_engine;
     lib_mpv_render_context_update := lib_mpv_render_context_update steady_engine;
     lib_malloc := lib_malloc steady_engine;
     rt_create_arraybuffer := fun _ _ => -1;
     rt_create_typedarray := rt_create_typedarray steady_engine |}.

(** * Properties *)

(** ** Worlds and results *)

Lemma world_eq (w1 w2 : world) :
  arraybuffers w1 = arraybuffers w2 -> heap w1 = heap w2 ->
  trace w1 = trace w2 -> thrown w1 = thrown w2 -> w1 = w2.
Proof. destruct w1, w2; simpl; intros; subst; reflexivity. Qed.

Lemma done_eq {A : Type} (a : A) (w1 w2 : world) :
  w1 = w2 -> Some (a, w1) = Some (a, w2).
Proof. intros ->. reflexivity. Qed.

Ltac same_world :=
  apply done_eq; apply world_eq; simpl;
  rewrite ?insert_insert_eq, <- ?app_assoc, ?app_nil_r;
  try reflexivity;
  try (symmetry; apply insert_id; assumption).

Lemma load_render_at (w : world) (handle : nat) (r : bare_mpv_render_t) :
  arraybuffers w !! handle = Some (Render_block r) ->
  load_render handle w = Some (r, w).
Proof. intros H. unfold load_render. rewrite H. reflexivity. Qed.

Lemma load_engine_at (w : world) (handle : nat) (h : bare_mpv_handle_t) :
  arraybuffers w !! handle = Some (Engine_block h) ->
  load_engine handle w = Some (h, w).
Proof. intros H. unfold load_engine. rewrite H. reflexivity. Qed.

Lemma setup_builds_live_world :
  run steady_engine setup empty_world
  = Some ([Some engine_handle; Some (js_create_int32 0); Some render_handle],
          live_world).
Proof. vm_compute. reflexivity. Qed.

(** ** Releasing a render handle *)

(** What [renderFree] does to a handle, whatever the handle still holds. *)
Lemma render_free_releases (w : world) (handle : nat) (r : bare_mpv_render_t) :
  arraybuffers w !! handle = Some (Render_block r) ->
  buffer_ok w r = true ->
  bare_mpv_render_free (call_info [JsArrayBuffer handle]) w
  = Some (NULL, after_free handle r w).
Proof.
  intros Hh Hb.
  destruct r as [c wd ht b]. unfold buffer_ok, allocated in Hb. simpl in Hb.
  unfold bare_mpv_render_free. simpl.
  unfold bind, ret. rewrite (load_render_at _ _ _ Hh). simpl.
  destruct c as [c|]; simpl.
  - unfold store_block, load_render. simpl. rewrite Hh. simpl.
    rewrite lookup_insert_eq.
    destruct b as [b|]; simpl.
    + destruct (heap w !! b) eqn:Hheap; [|discriminate].
      unfold store_block. simpl. rewrite lookup_insert_eq. same_world.
    + same_world.
  - rewrite (load_render_at _ _ _ Hh). destruct b as [b|]; simpl.
    + destruct (heap w !! b) eqn:Hheap; [|discriminate].
      unfold store_block. simpl. rewrite Hh. same_world.
    + same_world.
Qed.

(** On a handle that holds neither context nor buffer it does nothing. *)
Lemma render_free_of_freed (w : world) (handle : nat) (r : bare_mpv_render_t) :
  arraybuffers w !! handle = Some (Render_block (freed r)) ->
  bare_mpv_render_free (call_info [JsArrayBuffer handle]) w = Some (NULL, w).
Proof.
  intros Hh. unfold bare_mpv_render_free. simpl.
  unfold bind, ret, load_render. rewrite Hh. simpl. rewrite Hh. reflexivity.
Qed.

(** C7: [renderFree] releases the render context if the handle has one and
    the pixel buffer if it has one, whichever of the two is there, and
    leaves both references null; a second call on the handle returns the
    same way and leaves the world as it found it: no release call, no
    error thrown, the handle unchanged. *)
Theorem render_free_idempotent (w : world) (handle : nat) (r : bare_mpv_render_t) :
  arraybuffers w !! handle = Some (Render_block r) ->
  buffer_ok w r = true ->
  bare_mpv_render_free (call_info [JsArrayBuffer handle]) w
    = Some (NULL, after_free handle r w) /\
  bare_mpv_render_free (call_info [JsArrayBuffer handle]) (after_free handle r w)
    = Some (NULL, after_free handle r w).
Proof.
  intros Hh Hb. split.
  - apply render_free_releases; assumption.
  - apply (render_free_of_freed _ handle r). simpl. apply lookup_insert_eq.
Qed.

Lemma render_free_idempotent_witness :
  arraybuffers live_world !! 1%nat = Some (Render_block live_render) /\
  buffer_ok live_world live_render = true /\
  bare_mpv_render_free (call_info [render_handle]) live_world
    = Some (NULL, after_free 1 live_render live_world) /\
  bare_mpv_render_free (call_info [render_handle]) (after_free 1 live_render live_world)
    = Some (NULL, after_free 1 live_render live_world).
Proof.
  split; [reflexivity|]. split; [reflexivity|].
  apply (render_free_idempotent live_world 1 live_render); reflexivity.
Defined.

Lemma after_free_live_world : after_free 1 live_render live_world = freed_world.
Proof. vm_compute. reflexivity. Qed.

(** ** Tearing an engine down *)

(** C8: [destroy] terminates the wrapped engine only when the handle still
    holds one and leaves the reference null; a second call on the handle
    leaves the world as it found it; and whatever it is called with,
    [destroy] hands nothing back. *)
Theorem destroy_idempotent (w : world) (handle : nat) (h : bare_mpv_handle_t) :
  arraybuffers w !! handle = Some (Engine_block h) ->
  bare_mpv_destroy (call_info [JsArrayBuffer handle]) w
    = Some (NULL, after_destroy handle h w) /\
  bare_mpv_destroy (call_info [JsArrayBuffer handle]) (after_destroy handle h w)
    = Some (NULL, after_destroy handle h w) /\
  forall info w0 res w1, bare_mpv_destroy info w0 = Some (res, w1) -> res = NULL.
Proof.
  intros Hh. destruct h as [m]. unfold bare_mpv_destroy. simpl. repeat split.
  - unfold bind, ret. rewrite (load_engine_at _ _ _ Hh). simpl.
    destruct m as [m|]; simpl.
    + unfold store_block. simpl. rewrite Hh. same_world.
    + same_world.
  - unfold bind, ret, load_engine, after_destroy. simpl.
    rewrite lookup_insert_eq. reflexivity.
  - intros info w0 res w1. unfold bind, ret.
    destruct (nonzero (cb_status info)); [congruence|].
    destruct (js_get_arraybuffer_info _) as [err id].
    destruct (nonzero err); [congruence|].
    destruct (load_engine id w0) as [[h0 w2]|]; [|discriminate].
    destruct (negb (is_null (mpv h0))); [|congruence].
    unfold mpv_terminate_destroy, native.
    destruct (store_block _ _ _) as [[[] w3]|]; congruence.
Qed.

Lemma destroy_idempotent_witness :
  arraybuffers live_world !! 0%nat = Some (Engine_block live_engine) /\
  bare_mpv_destroy (call_info [engine_handle]) live_world
    = Some (NULL, after_destroy 0 live_engine live_world) /\
  bare_mpv_destroy (call_info [engine_handle]) (after_destroy 0 live_engine live_world)
    = Some (NULL, after_destroy 0 live_engine live_world) /\
  forall info w0 res w1, bare_mpv_destroy info w0 = Some (res, w1) -> res = NULL.
Proof.
  split; [reflexivity|].
  apply (destroy_idempotent live_world 0 live_engine). reflexivity.
Defined.

(** ** Polling a render handle *)

Section Update.

Variable orc : oracle.

(** [renderUpdate] has no test on the context: whatever the handle holds
    goes to the engine. *)
Lemma render_update_unguarded (w : world) (handle : nat) (r : bare_mpv_render_t) :
  arraybuffers w !! handle = Some (Render_block r) ->
  bare_mpv_render_update orc (call_info [JsArrayBuffer handle]) w
  = Some (Some (JsBoolean
                  (nonzero (Z.land (lib_mpv_render_context_update orc (trace w) (ctx r))
                                   MPV_RENDER_UPDATE_FRAME))),
          log (Mpv_render_context_update (ctx r)) w).
Proof.
  intros Hh. unfold bare_mpv_render_update. simpl.
  unfold bind, ret. rewrite (load_render_at _ _ _ Hh). reflexivity.
Qed.

End Update.

(** C1, which the code does not meet: on a render handle that [renderFree]
    has emptied, [renderUpdate] is not a no-op.  It passes the null context
    to [mpv_render_context_update], the last native call of this script. *)
Lemma render_update_after_free_calls_engine :
  run steady_engine
      (setup ++ [ (renderFree, call_info [render_handle]);
                  (renderUpdate, call_info [render_handle]) ])
      empty_world
  = Some ([ Some engine_handle; Some (js_create_int32 0); Some render_handle;
            NULL; Some (JsBoolean true) ],
          log (Mpv_render_context_update NULL) freed_world).
Proof. vm_compute. reflexivity. Qed.

(** ** Writing a property *)

Section SetProperty.

Variable orc : oracle.

(** C3: for a value that is neither a number, a boolean nor a string,
    [setProperty] answers -1 and leaves the world untouched, so no native
    setter runs; for a number, a boolean or a string it makes one native
    call, to the setter of that type, and answers with the status of that
    call. *)
Theorem set_property_dispatch (w : world) (handle : nat) (h : bare_mpv_handle_t)
    (name : string) (value : js_value) :
  arraybuffers w !! handle = Some (Engine_block h) ->
  (supported (js_typeof value) = false ->
     bare_mpv_set_property orc (call_info [JsArrayBuffer handle; JsString name; value]) w
     = Some (Some (js_create_int32 (-1)), w)) /\
  (forall d, value = JsNumber d ->
     bare_mpv_set_property orc (call_info [JsArrayBuffer handle; JsString name; value]) w
     = Some (Some (js_create_int32
                     (lib_mpv_set_property orc (trace w) (mpv h) (c_str name)
                        (Data_double d))),
             log (Mpv_set_property (mpv h) (c_str name) MPV_FORMAT_DOUBLE
                    (Data_double d)) w)) /\
  (forall b, value = JsBoolean b ->
     bare_mpv_set_property orc (call_info [JsArrayBuffer handle; JsString name; value]) w
     = Some (Some (js_create_int32
                     (lib_mpv_set_property orc (trace w) (mpv h) (c_str name)
                        (Data_flag (if b then 1 else 0)))),
             log (Mpv_set_property (mpv h) (c_str name) MPV_FORMAT_FLAG
                    (Data_flag (if b then 1 else 0))) w)) /\
  (forall s, value = JsString s ->
     bare_mpv_set_property orc (call_info [JsArrayBuffer handle; JsString name; value]) w
     = Some (Some (js_create_int32
                     (lib_mpv_set_property_string orc (trace w) (mpv h) (c_str name)
                        (c_str s))),
             log (Mpv_set_property_string (mpv h) (c_str name) (c_str s)) w)).
Proof.
  intros Hh. unfold bare_mpv_set_property. simpl.
  unfold bind, ret. simpl.
  repeat split.
  - intros Hty. destruct value; simpl in Hty; try discriminate; reflexivity.
  - intros d ->. simpl. rewrite (load_engine_at _ _ _ Hh). reflexivity.
  - intros b ->. simpl. rewrite (load_engine_at _ _ _ Hh). reflexivity.
  - intros s ->. simpl. rewrite (load_engine_at _ _ _ Hh). reflexivity.
Qed.

End SetProperty.

Lemma set_property_dispatch_witness :
  arraybuffers live_world !! 0%nat = Some (Engine_block live_engine) /\
  bare_mpv_set_property steady_engine
    (call_info [engine_handle; JsString "volume"; JsNull]) live_world
  = Some (Some (js_create_int32 (-1)), live_world) /\
  bare_mpv_set_property steady_engine
    (call_info [engine_handle; JsString "pause"; JsBoolean true]) live_world
  = Some (Some (js_create_int32 0),
          log (Mpv_set_property (Some 1%positive) "pause" MPV_FORMAT_FLAG (Data_flag 1))
              live_world).
Proof.
  split; [reflexivity|]. split.
  - apply (set_property_dispatch steady_engine live_world 0 live_engine "volume" JsNull);
      reflexivity.
  - exact (proj1 (proj2 (proj2
             (set_property_dispatch steady_engine live_world 0 live_engine "pause"
                (JsBoolean true) eq_refl))) true eq_refl).
Defined.

(** ** Reading a property *)

Section GetProperty.

Variable orc : oracle.
Variables (w : world) (handle : nat) (h : bare_mpv_handle_t) (name : string).

Let d := probe_double orc (trace w) (mpv h) (c_str name).
Let f := probe_flag orc (trace w) (mpv h) (c_str name).
Let s := probe_string orc (trace w) (mpv h) (c_str name).
Let pd := probe_call (mpv h) (c_str name) MPV_FORMAT_DOUBLE.
Let pf := probe_call (mpv h) (c_str name) MPV_FORMAT_FLAG.
Let ps := probe_call (mpv h) (c_str name) MPV_FORMAT_STRING.

(** The result and the world of [getProperty], by the answers to the probes. *)
Lemma get_property_eq :
  arraybuffers w !! handle = Some (Engine_block h) ->
  bare_mpv_get_property orc (call_info [JsArrayBuffer handle; JsString name]) w
  = if fst d >=? 0 then Some (Some (JsNumber (snd d)), log pd w)
    else if fst f >=? 0 then
      Some (Some (JsBoolean (nonzero (snd f))), log pf (log pd w))
    else
      match fst s >=? 0, snd s with
      | true, Some str =>
          Some (Some (JsString (c_str str)),
                log (Mpv_free str) (log ps (log pf (log pd w))))
      | _, _ => Some (Some JsUndefined, log ps (log pf (log pd w)))
      end.
Proof.
  intros Hh. unfold bare_mpv_get_property. simpl.
  unfold bind, ret. simpl. rewrite (load_engine_at _ _ _ Hh).
  unfold mpv_get_property_double, mpv_get_property_flag,
    mpv_get_property_string, mpv_free, native. simpl.
  subst d f s pd pf ps. unfold probe_double, probe_flag, probe_string, probe_call.
  destruct (lib_mpv_get_property_double _ _ _ _) as [sd vd]. simpl.
  destruct (sd >=? 0); [reflexivity|].
  destruct (lib_mpv_get_property_flag _ _ _ _) as [sf vf]. simpl.
  destruct (sf >=? 0); [reflexivity|].
  match goal with
  | |- context [trace (log ?b (log ?a w))] =>
      replace (trace (log b (log a w))) with (trace w ++ [a; b])
        by (simpl; rewrite <- app_assoc; reflexivity)
  end.
  destruct (lib_mpv_get_property_string _ _ _ _) as [ss vs]. simpl.
  destruct (ss >=? 0), vs; reflexivity.
Qed.

Lemma geb0_spec (z : Z) : if z >=? 0 then 0 <= z else z < 0.
Proof. rewrite Z.geb_leb. destruct (Z.leb_spec 0 z); lia. Qed.

Ltac probe_cases :=
  pose proof (geb0_spec (fst d)) as Hd;
  pose proof (geb0_spec (fst f)) as Hf;
  pose proof (geb0_spec (fst s)) as Hs;
  destruct (fst d >=? 0);
  [| destruct (fst f >=? 0);
     [| destruct (fst s >=? 0), (snd s) as [str0|] eqn:Hstr ] ].

(** C2, amended: [getProperty] probes the engine for a number, then a
    boolean, then a string, stops at the first probe that counts and
    returns its value, where a number or boolean probe counts when its
    status is >= 0 and a string probe when its status is >= 0 and the
    engine gave a string; when no probe counts it returns [undefined].  It
    throws nothing in any case. *)
Theorem get_property_probe_order :
  arraybuffers w !! handle = Some (Engine_block h) ->
  exists res w',
    bare_mpv_get_property orc (call_info [JsArrayBuffer handle; JsString name]) w
    = Some (Some res, w') /\
    thrown w' = thrown w /\
    (0 <= fst d -> res = JsNumber (snd d) /\ trace w' = trace w ++ [pd]) /\
    (fst d < 0 -> 0 <= fst f ->
       res = JsBoolean (nonzero (snd f)) /\ trace w' = trace w ++ [pd; pf]) /\
    (fst d < 0 -> fst f < 0 -> 0 <= fst s -> forall str, snd s = Some str ->
       res = JsString (c_str str) /\
       trace w' = trace w ++ [pd; pf; ps; Mpv_free str]) /\
    (fst d < 0 -> fst f < 0 -> fst s < 0 \/ snd s = None ->
       res = JsUndefined /\ trace w' = trace w ++ [pd; pf; ps]).
Proof.
  intros Hh. rewrite (get_property_eq Hh). fold d f s pd pf ps.
  probe_cases; eexists; eexists; (split; [reflexivity|]);
    (split; [reflexivity|]); simpl; rewrite <- ?app_assoc; simpl;
    repeat split; intros; try lia; try congruence; try reflexivity;
    try (destruct H1; [lia | congruence]).
Qed.

(** C10: when the string probe reports success but the engine gave no
    string, [getProperty] returns [undefined]; it returns a string only
    when the first two probes failed, the status of the string probe is
    >= 0 and the pointer it filled in is not null. *)
Theorem get_property_string_needs_pointer :
  arraybuffers w !! handle = Some (Engine_block h) ->
  exists res w',
    bare_mpv_get_property orc (call_info [JsArrayBuffer handle; JsString name]) w
    = Some (Some res, w') /\
    (fst d < 0 -> fst f < 0 -> 0 <= fst s -> snd s = None ->
       res = JsUndefined /\ trace w' = trace w ++ [pd; pf; ps]) /\
    ((exists str, res = JsString str) <->
       fst d < 0 /\ fst f < 0 /\ 0 <= fst s /\ snd s <> None).
Proof.
  intros Hh. rewrite (get_property_eq Hh). fold d f s pd pf ps.
  probe_cases; eexists; eexists; (split; [reflexivity|]);
    simpl; rewrite <- ?app_assoc; simpl;
    (split; [intros; try lia; try congruence; split; reflexivity|]);
    (split; [intros [str Hres]; try discriminate | intros (? & ? & ? & ?)]);
    try lia; try congruence; eauto.
Qed.

End GetProperty.

Lemma get_property_probe_order_witness :
  arraybuffers live_world !! 0%nat = Some (Engine_block live_engine) /\
  exists w',
    bare_mpv_get_property steady_engine
      (call_info [engine_handle; JsString "path"]) live_world
    = Some (Some (JsString "test.mkv"), w') /\
    thrown w' = [] /\
    trace w' = trace live_world
               ++ [ probe_call (Some 1%positive) "path" MPV_FORMAT_DOUBLE;
                    probe_call (Some 1%positive) "path" MPV_FORMAT_FLAG;
                    probe_call (Some 1%positive) "path" MPV_FORMAT_STRING;
                    Mpv_free "test.mkv" ].
Proof.
  split; [reflexivity|].
  destruct (get_property_probe_order steady_engine live_world 0 live_engine "path"
              eq_refl) as (res & w' & Hrun & Hthrown & _ & _ & Hstring & _).
  destruct (Hstring eq_refl eq_refl ltac:(discriminate) "test.mkv"%string eq_refl)
    as [-> Htrace].
  exists w'. split; [exact Hrun|]. split; [exact Hthrown | exact Htrace].
Defined.

(** C2 as the specification words it fails where the engine accepts the
    string probe without handing a string over: the two earlier probes
    fail, the status of the string probe is 0, and [getProperty] returns
    [undefined], which is not the value of an accepted representation. *)
Lemma get_property_accepted_without_value :
  option_map fst
    (bare_mpv_get_property steady_engine
       (call_info [engine_handle; JsString "ghost"]) live_world)
  = Some (Some JsUndefined) /\
  ~ first_accepted
      (probe_double steady_engine (trace live_world) (Some 1%positive) "ghost")
      (probe_flag steady_engine (trace live_world) (Some 1%positive) "ghost")
      (probe_string steady_engine (trace live_world) (Some 1%positive) "ghost")
      JsUndefined.
Proof.
  split; [vm_compute; reflexivity|].
  unfold first_accepted. simpl. intros [str Hstr]. discriminate Hstr.
Qed.

Lemma get_property_string_needs_pointer_witness :
  arraybuffers live_world !! 0%nat = Some (Engine_block live_engine) /\
  exists w',
    bare_mpv_get_property steady_engine
      (call_info [engine_handle; JsString "ghost"]) live_world
    = Some (Some JsUndefined, w') /\
    trace w' = trace live_world
               ++ [ probe_call (Some 1%positive) "ghost" MPV_FORMAT_DOUBLE;
                    probe_call (Some 1%positive) "ghost" MPV_FORMAT_FLAG;
                    probe_call (Some 1%positive) "ghost" MPV_FORMAT_STRING ].
Proof.
  split; [reflexivity|].
  destruct (get_property_string_needs_pointer steady_engine live_world 0 live_engine
              "ghost" eq_refl) as (res & w' & Hrun & Hnull & _).
  destruct (Hnull eq_refl eq_refl ltac:(discriminate) eq_refl) as [-> Htrace].
  exists w'. split; [exact Hrun | exact Htrace].
Defined.

(** ** Sizes *)

Lemma wrap_int_id (z : Z) : - 2 ^ 31 <= z < 2 ^ 31 -> wrap_int z = z.
Proof. intros H. unfold wrap_int. rewrite Z.mod_small; lia. Qed.

Lemma frame_size_nonneg (w h : Z) : 0 <= frame_size w h.
Proof. unfold frame_size, to_size_t. apply Z.mod_pos_bound. lia. Qed.

(** Where the product fits in an [int], the size the source computes is
    the product. *)
Lemma frame_size_exact (w h : Z) :
  - 2 ^ 31 <= w * h < 2 ^ 31 -> 0 <= w * h * 4 < 2 ^ 31 ->
  frame_size w h = w * h * 4.
Proof.
  intros H1 H2. unfold frame_size, int_mul, to_size_t.
  rewrite (wrap_int_id (w * h)) by exact H1.
  rewrite wrap_int_id by lia.
  apply Z.mod_small. lia.
Qed.

(** Beyond that the product wraps: for a 32768 x 32768 handle the source
    computes a size of no byte at all. *)
Lemma frame_size_wraps : frame_size 32768 32768 = 0 /\ 32768 * 32768 * 4 = 2 ^ 32.
Proof. split; vm_compute; reflexivity. Qed.

Lemma overwrite_length (pixels old : list byte) :
  length (overwrite pixels old) = length old.
Proof.
  unfold overwrite. rewrite length_take, length_app, length_drop. lia.
Qed.

(** ** Producing a frame *)

Section RenderFrame.

Variable orc : oracle.
Variables (w : world) (handle : nat) (r : bare_mpv_render_t).

Hypothesis Hhandle : arraybuffers w !! handle = Some (Render_block r).
Hypothesis Hbuffer : buffer_ok w r = true.

Let size := frame_size (width r) (height r).

Lemma render_frame_absent :
  absent r = true ->
  bare_mpv_render_frame orc (call_info [JsArrayBuffer handle]) w
  = Some (Some JsNull, w).
Proof.
  intros Ha. unfold bare_mpv_render_frame. simpl.
  unfold bind, ret. rewrite (load_render_at _ _ _ Hhandle).
  unfold absent in Ha. rewrite Ha. reflexivity.
Qed.

Lemma pixels_of_rendered :
  absent r = false ->
  Z.of_nat (length (pixels_of (rendered orc w r) r)) = size.
Proof.
  intros Ha. unfold absent in Ha. unfold buffer_ok, allocated in Hbuffer.
  unfold pixels_of, rendered. destruct (buffer r) as [a|] eqn:Hb.
  - simpl. rewrite lookup_insert_eq. simpl. rewrite overwrite_length.
    unfold pixels_of. rewrite Hb.
    destruct (heap w !! a); [|discriminate]. simpl.
    apply Z.eqb_eq. exact Hbuffer.
  - rewrite orb_true_r in Ha. discriminate.
Qed.

(** The result and the world of [renderFrame] on a handle that holds a
    context and a buffer. *)
Lemma render_frame_eq :
  absent r = false ->
  bare_mpv_render_frame orc (call_info [JsArrayBuffer handle]) w
  = if fst (render_answer orc w r) <? 0 then
      Some (Some JsNull, rendered orc w r)
    else if nonzero (rt_create_arraybuffer orc (trace w ++ [render_call r]) size) then
      Some (NULL, rendered orc w r)
    else
      let data := fresh (dom (arraybuffers w)) in
      Some (Some (if nonzero (rt_create_typedarray orc (trace w ++ [render_call r]) size)
                  then JsArrayBuffer data
                  else JsUint8Array data 0 size),
            framed orc w r data).
Proof.
  intros Ha. pose proof (pixels_of_rendered Ha) as Hlen.
  unfold bare_mpv_render_frame. simpl.
  unfold bind, ret. rewrite (load_render_at _ _ _ Hhandle).
  unfold absent in Ha. rewrite Ha.
  unfold framed, rendered, pixels_of, render_answer in *.
  unfold buffer_ok, allocated in Hbuffer. unfold mpv_render_context_render.
  destruct (buffer r) as [a|] eqn:Hb; [|rewrite orb_true_r in Ha; discriminate].
  destruct (heap w !! a) as [old|] eqn:Hold; [|discriminate]. simpl.
  unfold render_call. rewrite ?Hb.
  destruct (lib_mpv_render_context_render _ _ _ _ _ _ _) as [status out]. simpl.
  simpl in Hlen. rewrite lookup_insert_eq in Hlen. simpl in Hlen.
  destruct (status <? 0); [reflexivity|].
  unfold js_create_arraybuffer. cbn [trace log set_heap]. fold size.
  destruct (nonzero (rt_create_arraybuffer _ _ _)) eqn:Herr;
    [simpl; rewrite Herr; reflexivity|].
  unfold memcpy. simpl. rewrite lookup_insert_eq. rewrite lookup_insert_eq.
  rewrite length_replicate.
  assert (Hsize : Z.to_nat size = length (overwrite out old)) by lia.
  rewrite Z2Nat.id by (apply frame_size_nonneg).
  rewrite Hlen, Z.leb_refl. simpl.
  unfold js_create_typedarray. simpl.
  rewrite Hsize, firstn_all, drop_replicate, Nat.sub_diag. simpl.
  rewrite app_nil_r.
  destruct (nonzero (rt_create_typedarray _ _ _)) eqn:Herr2;
    simpl; rewrite ?Herr2; same_world.
Qed.

End RenderFrame.

Lemma fresh_arraybuffer (w : world) :
  arraybuffers w !! fresh (dom (arraybuffers w)) = None.
Proof. apply not_elem_of_dom. apply is_fresh. Qed.

Lemma rendered_thrown (orc : oracle) (w : world) (r : bare_mpv_render_t) :
  thrown (rendered orc w r) = thrown w.
Proof. unfold rendered. destruct (buffer r); reflexivity. Qed.

Lemma rendered_arraybuffers (orc : oracle) (w : world) (r : bare_mpv_render_t) :
  arraybuffers (rendered orc w r) = arraybuffers w.
Proof. unfold rendered. destruct (buffer r); reflexivity. Qed.

Lemma rendered_trace (orc : oracle) (w : world) (r : bare_mpv_render_t) :
  is_null (buffer r) = false ->
  trace (rendered orc w r) = trace w ++ [render_call r].
Proof. unfold rendered. destruct (buffer r); [reflexivity | discriminate]. Qed.

Lemma absent_buffer (r : bare_mpv_render_t) :
  absent r = false -> is_null (buffer r) = false.
Proof. unfold absent. destruct (is_null (ctx r)), (is_null (buffer r)); auto. Qed.

(** C4: [renderFrame] answers [null] in two cases and no other: when the
    handle has lost its context or its buffer, and when the native render
    call reports a negative status.  The answer is the same value in both,
    and nothing is thrown.  In the first case the world is left as it was,
    so no native call was made; in the second the one native call is the
    render call. *)
Theorem render_frame_null_cases (orc : oracle) (w : world) (handle : nat)
    (r : bare_mpv_render_t) :
  arraybuffers w !! handle = Some (Render_block r) ->
  buffer_ok w r = true ->
  exists res w',
    bare_mpv_render_frame orc (call_info [JsArrayBuffer handle]) w = Some (res, w') /\
    thrown w' = thrown w /\
    (script_view res = JsNull <->
       absent r = true \/ (absent r = false /\ fst (render_answer orc w r) < 0)) /\
    (absent r = true -> res = Some JsNull /\ w' = w) /\
    (absent r = false -> fst (render_answer orc w r) < 0 ->
       res = Some JsNull /\ trace w' = trace w ++ [render_call r]).
Proof.
  intros Hh Hb. destruct (absent r) eqn:Ha.
  - exists (Some JsNull), w. rewrite (render_frame_absent orc _ _ _ Hh Ha).
    repeat split; auto; discriminate.
  - rewrite (render_frame_eq orc _ _ _ Hh Hb Ha).
    pose proof (rendered_trace orc w r (absent_buffer r Ha)) as Htrace.
    destruct (Z.ltb_spec (fst (render_answer orc w r)) 0) as [Hneg|Hpos].
    + eexists; eexists. split; [reflexivity|].
      rewrite rendered_thrown. repeat split; auto; discriminate.
    + destruct (nonzero (rt_create_arraybuffer _ _ _)).
      * eexists; eexists. split; [reflexivity|].
        rewrite rendered_thrown. simpl.
        repeat split; try discriminate; try lia.
      * eexists; eexists. split; [reflexivity|].
        unfold framed. simpl. rewrite rendered_thrown.
        repeat split; try discriminate; try lia.
        destruct (nonzero (rt_create_typedarray _ _ _)); discriminate.
Qed.

Lemma render_frame_null_cases_witness :
  arraybuffers freed_world !! 1%nat = Some (Render_block (freed live_render)) /\
  buffer_ok freed_world (freed live_render) = true /\
  bare_mpv_render_frame steady_engine (call_info [render_handle]) freed_world
  = Some (Some JsNull, freed_world).
Proof.
  split; [reflexivity|]. split; [reflexivity|].
  destruct (render_frame_null_cases steady_engine freed_world 1 (freed live_render)
              eq_refl eq_refl) as (res & w' & Hrun & _ & _ & Habsent & _).
  destruct (Habsent eq_refl) as [-> ->]. exact Hrun.
Defined.

Lemma script_write_bytes (w : world) (data i : nat) (b : byte) (bytes : list byte) :
  arraybuffers w !! data = Some (Bytes_block bytes) ->
  script_write data i b w
  = set_arraybuffers (insert data (Bytes_block (<[i := b]> bytes))) w.
Proof. intros H. unfold script_write. rewrite H. reflexivity. Qed.

Lemma rendered_buffer_ok (orc : oracle) (w : world) (r : bare_mpv_render_t) :
  buffer_ok w r = true -> buffer_ok (rendered orc w r) r = true.
Proof.
  unfold buffer_ok, allocated, rendered, pixels_of.
  destruct (buffer r) as [a|] eqn:Hb; [|reflexivity].
  destruct (heap w !! a) as [old|]; [|discriminate]. simpl.
  rewrite lookup_insert_eq, overwrite_length. auto.
Qed.

(** Where the byte count fits in an [int], the size the source computes
    for a frame is [width * height * 4]. *)
Lemma frame_size_fits (r : bare_mpv_render_t) :
  0 <= width r * height r * 4 < 2 ^ 31 ->
  frame_size (width r) (height r) = width r * height r * 4.
Proof. intros H. apply frame_size_exact; lia. Qed.

(** One successful call: the frame is a new array buffer. *)
Lemma render_frame_hands_out (orc : oracle) (w : world) (handle : nat)
    (r : bare_mpv_render_t) :
  arraybuffers w !! handle = Some (Render_block r) ->
  buffer_ok w r = true ->
  absent r = false ->
  0 <= width r * height r * 4 < 2 ^ 31 ->
  0 <= fst (render_answer orc w r) ->
  rt_create_arraybuffer orc (trace w ++ [render_call r]) (width r * height r * 4) = 0 ->
  bare_mpv_render_frame orc (call_info [JsArrayBuffer handle]) w
  = Some (Some (frame_value orc (trace w ++ [render_call r])
                  (width r * height r * 4) (fresh (dom (arraybuffers w)))),
          framed orc w r (fresh (dom (arraybuffers w)))).
Proof.
  intros Hh Hb Ha Hfit Hok Halloc.
  rewrite (render_frame_eq orc _ _ _ Hh Hb Ha), (frame_size_fits r Hfit).
  destruct (Z.ltb_spec (fst (render_answer orc w r)) 0) as [Hneg|_]; [lia|].
  rewrite Halloc. reflexivity.
Qed.

(** C5, amended: on a handle that holds a context and a buffer and whose
    byte count [width * height * 4] fits in an [int], when the native
    render call succeeds, [renderFrame] hands back a null pointer if the
    runtime creates no array buffer, and otherwise a frame: an array
    buffer that did not exist before the call, of exactly
    [width * height * 4] bytes, holding the bytes the pixel buffer holds
    when the call returns, while every other array buffer is as it was.
    The frame shares nothing with the pixel buffer or with the frame of
    another call: when script code stores a byte into it and [renderFrame]
    runs again, the second frame is another array buffer, it holds what
    the pixel buffer then holds, the C heap is what the render call leaves
    without the store, the first frame still holds its bytes with the
    stored one, and a store into the second frame leaves the first as it
    is. *)
Theorem render_frame_fresh_copy (orc : oracle) (w : world) (handle : nat)
    (r : bare_mpv_render_t) :
  arraybuffers w !! handle = Some (Render_block r) ->
  buffer_ok w r = true ->
  absent r = false ->
  0 <= width r * height r * 4 < 2 ^ 31 ->
  0 <= fst (render_answer orc w r) ->
  (rt_create_arraybuffer orc (trace w ++ [render_call r]) (width r * height r * 4) <> 0 ->
     exists w',
       bare_mpv_render_frame orc (call_info [JsArrayBuffer handle]) w = Some (NULL, w') /\
       arraybuffers w' = arraybuffers w /\ thrown w' = thrown w) /\
  (rt_create_arraybuffer orc (trace w ++ [render_call r]) (width r * height r * 4) = 0 ->
     exists data w',
       bare_mpv_render_frame orc (call_info [JsArrayBuffer handle]) w
       = Some (Some (frame_value orc (trace w ++ [render_call r])
                       (width r * height r * 4) data), w') /\
       arraybuffers w !! data = None /\
       arraybuffers w' !! data = Some (Bytes_block (pixels_of w' r)) /\
       Z.of_nat (length (pixels_of w' r)) = width r * height r * 4 /\
       (forall id, id <> data -> arraybuffers w' !! id = arraybuffers w !! id) /\
       forall i b,
         0 <= fst (render_answer orc (script_write data i b w') r) ->
         rt_create_arraybuffer orc (trace (script_write data i b w') ++ [render_call r])
           (width r * height r * 4) = 0 ->
         exists data2 w2,
           bare_mpv_render_frame orc (call_info [JsArrayBuffer handle])
             (script_write data i b w')
           = Some (Some (frame_value orc
                           (trace (script_write data i b w') ++ [render_call r])
                           (width r * height r * 4) data2), w2) /\
           data2 <> data /\
           arraybuffers w2 !! data2 = Some (Bytes_block (pixels_of w2 r)) /\
           heap w2 = heap (rendered orc w' r) /\
           arraybuffers w2 !! data
           = Some (Bytes_block (<[i := b]> (pixels_of w' r))) /\
           forall j c,
             arraybuffers (script_write data2 j c w2) !! data = arraybuffers w2 !! data).
Proof.
  intros Hh Hb Ha Hfit Hok. split.
  - intros Hrefused. exists (rendered orc w r).
    rewrite (render_frame_eq orc _ _ _ Hh Hb Ha), (frame_size_fits r Hfit).
    destruct (Z.ltb_spec (fst (render_answer orc w r)) 0) as [Hneg|_]; [lia|].
    unfold nonzero. destruct (Z.eqb_spec (rt_create_arraybuffer orc
      (trace w ++ [render_call r]) (width r * height r * 4)) 0) as [H0|_];
      [contradiction|]. simpl.
    split; [reflexivity|]. split; [apply rendered_arraybuffers | apply rendered_thrown].
  - intros Halloc.
    set (data := fresh (dom (arraybuffers w))).
    set (w' := framed orc w r data).
    assert (Hfresh : arraybuffers w !! data = None) by apply fresh_arraybuffer.
    assert (Hframe : arraybuffers w' !! data = Some (Bytes_block (pixels_of w' r)))
      by (unfold w', framed; simpl; apply lookup_insert_eq).
    exists data, w'.
    split; [apply render_frame_hands_out; assumption|].
    split; [exact Hfresh|]. split; [exact Hframe|].
    split.
    { rewrite <- (frame_size_fits r Hfit).
      apply (pixels_of_rendered orc _ _ Hb Ha). }
    split.
    { intros id Hid. unfold w', framed. simpl.
      rewrite lookup_insert_ne by congruence. rewrite rendered_arraybuffers.
      reflexivity. }
    intros i b. rewrite (script_write_bytes _ _ _ _ _ Hframe).
    set (w1 := set_arraybuffers _ w'). intros Hok1 Halloc1.
    assert (Hne : handle <> data) by congruence.
    assert (Hh1 : arraybuffers w1 !! handle = Some (Render_block r)).
    { unfold w1, w', framed. simpl. rewrite !lookup_insert_ne by congruence.
      rewrite rendered_arraybuffers. exact Hh. }
    assert (Hb1 : buffer_ok w1 r = true) by (apply (rendered_buffer_ok orc w r Hb)).
    assert (Hmine : arraybuffers w1 !! data
                    = Some (Bytes_block (<[i := b]> (pixels_of w' r))))
      by (unfold w1; simpl; apply lookup_insert_eq).
    set (data2 := fresh (dom (arraybuffers w1))).
    assert (Hother : data2 <> data).
    { intros E. pose proof (fresh_arraybuffer w1) as Hnone. fold data2 in Hnone.
      rewrite E in Hnone. congruence. }
    exists data2, (framed orc w1 r data2).
    split; [apply render_frame_hands_out; assumption|].
    split; [exact Hother|].
    split; [unfold framed; simpl; apply lookup_insert_eq|].
    split.
    { unfold framed, rendered, render_answer, pixels_of.
      destruct (buffer r); reflexivity. }
    split.
    { unfold framed at 1. simpl. rewrite lookup_insert_ne by congruence.
      rewrite rendered_arraybuffers. exact Hmine. }
    intros j c. unfold script_write.
    destruct (arraybuffers (framed orc w1 r data2) !! data2) as [[| |bytes]|];
      try reflexivity.
    simpl. rewrite lookup_insert_ne by congruence. reflexivity.
Qed.

Lemma render_frame_fresh_copy_witness :
  arraybuffers live_world !! 1%nat = Some (Render_block live_render) /\
  buffer_ok live_world live_render = true /\
  absent live_render = false /\
  0 <= width live_render * height live_render * 4 < 2 ^ 31 /\
  0 <= fst (render_answer steady_engine live_world live_render) /\
  0 <= fst (render_answer starved_runtime live_world live_render) /\
  (exists w',
     bare_mpv_render_frame starved_runtime (call_info [render_handle]) live_world
     = Some (NULL, w') /\
     arraybuffers w' = arraybuffers live_world) /\
  exists data w',
    bare_mpv_render_frame steady_engine (call_info [render_handle]) live_world
    = Some (Some (JsUint8Array data 0 16), w') /\
    arraybuffers live_world !! data = None /\
    arraybuffers w' !! data = Some (Bytes_block (pixels_of w' live_render)) /\
    Z.of_nat (length (pixels_of w' live_render)) = 2 * 2 * 4 /\
    exists data2 w2,
      bare_mpv_render_frame steady_engine (call_info [render_handle])
        (script_write data 0 xff w')
      = Some (Some (JsUint8Array data2 0 16), w2) /\
      data2 <> data /\
      arraybuffers w2 !! data
      = Some (Bytes_block (<[0%nat := xff]> (pixels_of w' live_render))).
Proof.
  split; [reflexivity|]. split; [reflexivity|]. split; [reflexivity|].
  split; [simpl; lia|]. split; [discriminate|]. split; [discriminate|].
  split.
  { destruct (render_frame_fresh_copy starved_runtime live_world 1 live_render
                eq_refl eq_refl eq_refl ltac:(simpl; lia) ltac:(discriminate))
      as [Hrefused _].
    destruct (Hrefused ltac:(discriminate)) as (w' & Hrun & Hsame & _).
    exists w'. split; [exact Hrun | exact Hsame]. }
  destruct (render_frame_fresh_copy steady_engine live_world 1 live_render
              eq_refl eq_refl eq_refl ltac:(simpl; lia) ltac:(discriminate))
    as [_ Hframe].
  destruct (Hframe eq_refl)
    as (data & w' & Hrun & Hfresh & Hcopy & Hlen & _ & Hagain).
  exists data, w'. split; [exact Hrun|]. split; [exact Hfresh|].
  split; [exact Hcopy|]. split; [exact Hlen|].
  destruct (Hagain 0%nat xff ltac:(discriminate) eq_refl)
    as (data2 & w2 & Hrun2 & Hother & _ & _ & Hkept & _).
  exists data2, w2. split; [exact Hrun2|]. split; [exact Hother | exact Hkept].
Defined.

(** C5 as the specification words it fails when the runtime has no array
    buffer to give: the handle is whole and the native render call
    succeeds, yet [renderFrame] hands back a null pointer and no buffer. *)
Lemma render_frame_without_output :
  absent live_render = false /\
  0 <= fst (render_answer starved_runtime live_world live_render) /\
  option_map fst
    (bare_mpv_render_frame starved_runtime (call_info [render_handle]) live_world)
  = Some NULL.
Proof.
  split; [reflexivity|]. split; [discriminate|]. vm_compute. reflexivity.
Qed.

(** Two frames in a row: the second call returns another buffer, and a
    store into the first changes neither the second nor the pixel buffer. *)
Lemma render_frame_twice_independent :
  exists w1 w2,
    bare_mpv_render_frame steady_engine (call_info [render_handle]) live_world
    = Some (Some (JsUint8Array 2 0 16), w1) /\
    bare_mpv_render_frame steady_engine (call_info [render_handle]) w1
    = Some (Some (JsUint8Array 3 0 16), w2) /\
    arraybuffers w2 !! 2%nat = Some (Bytes_block (replicate 16 x22)) /\
    arraybuffers w2 !! 3%nat = Some (Bytes_block (replicate 16 x11)) /\
    arraybuffers (script_write 2 0 xff w2) !! 2%nat
    = Some (Bytes_block (xff :: replicate 15 x22)) /\
    arraybuffers (script_write 2 0 xff w2) !! 3%nat = arraybuffers w2 !! 3%nat /\
    heap (script_write 2 0 xff w2) = heap w2.
Proof.
  eexists; eexists. split; [vm_compute; reflexivity|].
  split; [vm_compute; reflexivity|].
  repeat split; vm_compute; reflexivity.
Qed.

(** ** Errors thrown to script code *)

Lemma command_strings_pure (array : js_value) (n i : nat) (w w' : world)
    (args : list string) :
  command_strings array i n w = Some (args, w') -> w' = w.
Proof.
  revert i w w' args. induction n as [|n IH]; intros i w w' args H; simpl in H.
  - unfold ret in H. congruence.
  - unfold bind, ret in H.
    destruct (js_get_value_string_utf8 _ w) as [[s w1]|] eqn:Hs; [|discriminate].
    destruct (command_strings _ _ _ w1) as [[rest w2]|] eqn:Hrest; [|discriminate].
    apply IH in Hrest.
    unfold js_get_value_string_utf8, ret, undefined_behaviour in Hs.
    destruct (js_get_element array i); congruence.
Qed.

Ltac unfold_calls :=
  unfold bind, ret, modify, undefined_behaviour, native,
    mpv_create, mpv_destroy, mpv_set_option_string, mpv_initialize,
    mpv_terminate_destroy, mpv_command, mpv_get_property_double,
    mpv_get_property_flag, mpv_get_property_string, mpv_set_property,
    mpv_set_property_string, mpv_free, mpv_render_context_create,
    mpv_render_context_render, mpv_render_context_free,
    mpv_render_context_update, malloc, free, memcpy,
    js_get_value_string_utf8, js_get_value_double, js_get_value_bool,
    js_get_value_int32, js_create_arraybuffer, js_create_typedarray,
    js_throw_error, load_engine, load_render, store_block in *.

Ltac run_cases :=
  repeat first [progress unfold_calls | progress simplify_eq/= | case_match].



Section Raising.

Variable orc : oracle.



















End Raising.


(** ** Dimensions and buffers across operations *)

Section Stores.

Implicit Types (ab : gmap nat block) (hp : gmap addr (list byte)).

Lemma dims_kept_refl ab : dims_kept ab ab.
Proof. intros id r Hr. exists r. auto. Qed.

Lemma dims_kept_trans ab1 ab2 ab3 :
  dims_kept ab1 ab2 -> dims_kept ab2 ab3 -> dims_kept ab1 ab3.
Proof.
  intros H12 H23 id r Hr.
  destruct (H12 id r Hr) as (r2 & Hr2 & Hw2 & Hh2).
  destruct (H23 id r2 Hr2) as (r3 & Hr3 & Hw3 & Hh3).
  exists r3. repeat split; congruence.
Qed.

Lemma dims_kept_insert ab id b :
  (forall r, ab !! id = Some (Render_block r) ->
     exists r', b = Render_block r' /\ width r' = width r /\ height r' = height r) ->
  dims_kept ab (<[id:=b]> ab).
Proof.
  intros Hb id' r Hr. destruct (decide (id' = id)) as [->|Hne].
  - destruct (Hb r Hr) as (r' & -> & Hdims). exists r'.
    rewrite lookup_insert_eq. auto.
  - exists r. rewrite lookup_insert_ne by congruence. auto.
Qed.

Lemma dims_kept_insert_fresh ab id b :
  ab !! id = None -> dims_kept ab (<[id:=b]> ab).
Proof. intros Hid. apply dims_kept_insert. intros r Hr. congruence. Qed.

Lemma allocated_insert_other hp a px r :
  buffer r <> Some a -> allocated (<[a:=px]> hp) r = allocated hp r.
Proof.
  intros Hne. unfold allocated. destruct (buffer r) as [b|]; [|reflexivity].
  rewrite lookup_insert_ne by congruence. reflexivity.
Qed.

Lemma allocated_delete_other hp a r :
  buffer r <> Some a -> allocated (delete a hp) r = allocated hp r.
Proof.
  intros Hne. unfold allocated. destruct (buffer r) as [b|]; [|reflexivity].
  rewrite lookup_delete_ne by congruence. reflexivity.
Qed.

Lemma allocated_in_heap hp a r :
  buffer r = Some a -> allocated hp r = true -> is_Some (hp !! a).
Proof.
  unfold allocated. intros ->. destruct (hp !! a); [eauto | discriminate].
Qed.

(** A block that is no render handle can go anywhere. *)
Lemma wf_insert_plain ab hp id b :
  (forall r, b <> Render_block r) -> wf_at ab hp -> wf_at (<[id:=b]> ab) hp.
Proof.
  intros Hb Hwf id0 r Hr.
  destruct (decide (id0 = id)) as [->|Hne].
  { rewrite lookup_insert_eq in Hr. exfalso. apply (Hb r). congruence. }
  rewrite lookup_insert_ne in Hr by congruence.
  destruct (Hwf id0 r Hr) as [Halloc Huniq]. split; [exact Halloc|].
  intros id' r' a Hr' Ha Ha'.
  destruct (decide (id' = id)) as [->|Hne'].
  { rewrite lookup_insert_eq in Hr'. exfalso. apply (Hb r'). congruence. }
  rewrite lookup_insert_ne in Hr' by congruence. eauto.
Qed.

(** The engine may rewrite a pixel buffer in place. *)
Lemma wf_pixels ab hp a px old :
  hp !! a = Some old -> length px = length old ->
  wf_at ab hp -> wf_at ab (<[a:=px]> hp).
Proof.
  intros Hold Hlen Hwf id r Hr. destruct (Hwf id r Hr) as [Halloc Huniq].
  split; [|exact Huniq].
  destruct (decide (buffer r = Some a)) as [Hb|Hb].
  - unfold allocated in *. rewrite Hb in *. rewrite lookup_insert_eq.
    rewrite Hold in Halloc. rewrite Hlen. exact Halloc.
  - rewrite allocated_insert_other by exact Hb. exact Halloc.
Qed.

(** A render handle that keeps its buffer and dimensions stays in order. *)
Lemma wf_same_buffer ab hp id r r' :
  ab !! id = Some (Render_block r) ->
  buffer r' = buffer r -> width r' = width r -> height r' = height r ->
  wf_at ab hp -> wf_at (<[id:=Render_block r']> ab) hp.
Proof.
  intros Hid Hb Hw Hh Hwf id0 r0 Hr0.
  destruct (Hwf id r Hid) as [Halloc Huniq].
  destruct (decide (id0 = id)) as [->|Hne].
  - rewrite lookup_insert_eq in Hr0. injection Hr0 as <-. split.
    + unfold allocated in *. rewrite Hb, Hw, Hh. exact Halloc.
    + intros id' r1 a Hr1 Ha Ha1.
      destruct (decide (id' = id)) as [->|Hne']; [reflexivity|].
      rewrite lookup_insert_ne in Hr1 by congruence.
      apply (Huniq id' r1 a Hr1); congruence.
  - rewrite lookup_insert_ne in Hr0 by congruence.
    destruct (Hwf id0 r0 Hr0) as [Halloc0 Huniq0]. split; [exact Halloc0|].
    intros id' r1 a Hr1 Ha Ha1.
    destruct (decide (id' = id)) as [->|Hne'].
    + rewrite lookup_insert_eq in Hr1. injection Hr1 as <-.
      apply (Huniq0 id r a Hid); congruence.
    + rewrite lookup_insert_ne in Hr1 by congruence. eauto.
Qed.

(** A render handle without a buffer can go anywhere. *)
Lemma wf_no_buffer ab hp id r' :
  buffer r' = None -> wf_at ab hp -> wf_at (<[id:=Render_block r']> ab) hp.
Proof.
  intros Hb Hwf id0 r0 Hr0.
  destruct (decide (id0 = id)) as [->|Hne].
  - rewrite lookup_insert_eq in Hr0. injection Hr0 as <-. split.
    + unfold allocated. rewrite Hb. reflexivity.
    + intros id' r1 a _ Ha. congruence.
  - rewrite lookup_insert_ne in Hr0 by congruence.
    destruct (Hwf id0 r0 Hr0) as [Halloc0 Huniq0]. split; [exact Halloc0|].
    intros id' r1 a Hr1 Ha Ha1.
    destruct (decide (id' = id)) as [->|Hne'].
    + rewrite lookup_insert_eq in Hr1. injection Hr1 as <-. congruence.
    + rewrite lookup_insert_ne in Hr1 by congruence. eauto.
Qed.

(** Releasing the buffer of a handle that owns it. *)
Lemma wf_release ab hp id r r' a :
  ab !! id = Some (Render_block r) -> buffer r = Some a -> buffer r' = None ->
  wf_at ab hp -> wf_at (<[id:=Render_block r']> ab) (delete a hp).
Proof.
  intros Hid Ha Hb Hwf id0 r0 Hr0.
  destruct (Hwf id r Hid) as [_ Huniq].
  destruct (decide (id0 = id)) as [->|Hne].
  - rewrite lookup_insert_eq in Hr0. injection Hr0 as <-. split.
    + unfold allocated. rewrite Hb. reflexivity.
    + intros id' r1 a1 _ Ha1. congruence.
  - rewrite lookup_insert_ne in Hr0 by congruence.
    destruct (Hwf id0 r0 Hr0) as [Halloc0 Huniq0].
    assert (Hother : buffer r0 <> Some a).
    { intros Hr0a. apply Hne. symmetry. apply (Huniq0 id r a Hid); assumption. }
    split; [rewrite allocated_delete_other by exact Hother; exact Halloc0|].
    intros id' r1 a1 Hr1 Ha0 Ha1.
    destruct (decide (id' = id)) as [->|Hne'].
    + rewrite lookup_insert_eq in Hr1. injection Hr1 as <-. congruence.
    + rewrite lookup_insert_ne in Hr1 by congruence. eauto.
Qed.

(** A new render handle over a new allocation of the right size. *)
Lemma wf_new_render ab hp id c wd ht a px :
  hp !! a = None -> Z.of_nat (length px) = frame_size wd ht ->
  wf_at ab hp ->
  wf_at (<[id:=Render_block {| ctx := c; width := wd; height := ht;
                               buffer := Some a |}]> ab)
        (<[a:=px]> hp).
Proof.
  intros Hfree Hlen Hwf.
  assert (Hnot : forall id1 r1, ab !! id1 = Some (Render_block r1) ->
                                buffer r1 <> Some a).
  { intros id1 r1 Hr1 Ha1. destruct (Hwf id1 r1 Hr1) as [Halloc _].
    destruct (allocated_in_heap _ _ _ Ha1 Halloc) as [px1 Hpx1]. congruence. }
  intros id0 r0 Hr0.
  destruct (decide (id0 = id)) as [->|Hne].
  - rewrite lookup_insert_eq in Hr0. injection Hr0 as <-. split.
    + unfold allocated. simpl. rewrite lookup_insert_eq.
      apply Z.eqb_eq. exact Hlen.
    + intros id' r1 a1 Hr1 Ha Ha1. simpl in Ha.
      destruct (decide (id' = id)) as [->|Hne']; [reflexivity|].
      rewrite lookup_insert_ne in Hr1 by congruence.
      exfalso. apply (Hnot id' r1 Hr1). congruence.
  - rewrite lookup_insert_ne in Hr0 by congruence.
    destruct (Hwf id0 r0 Hr0) as [Halloc0 Huniq0]. split.
    + rewrite allocated_insert_other by (apply (Hnot id0 r0 Hr0)). exact Halloc0.
    + intros id' r1 a1 Hr1 Ha0 Ha1.
      destruct (decide (id' = id)) as [->|Hne'].
      * rewrite lookup_insert_eq in Hr1. injection Hr1 as <-. simpl in Ha1.
        exfalso. apply (Hnot id0 r0 Hr0). congruence.
      * rewrite lookup_insert_ne in Hr1 by congruence. eauto.
Qed.

Lemma wf_empty : wf_at ∅ ∅.
Proof. intros id r Hr. rewrite lookup_empty in Hr. discriminate. Qed.

End Stores.

Ltac keeps_nothing_moved :=
  split; [apply dims_kept_refl | unfold render_wf; simpl; tauto].

Section Keeping.

Variable orc : oracle.

Lemma initialize_keeps info w res w' :
  bare_mpv_initialize orc info w = Some (res, w') ->
  dims_kept (arraybuffers w) (arraybuffers w') /\ (render_wf w -> render_wf w').
Proof.
  unfold bare_mpv_initialize. intros H. run_cases; simpl; keeps_nothing_moved.
Qed.

Lemma command_keeps info w res w' :
  bare_mpv_command orc info w = Some (res, w') ->
  dims_kept (arraybuffers w) (arraybuffers w') /\ (render_wf w -> render_wf w').
Proof.
  unfold bare_mpv_command. intros H. unfold bind at 1 in H.
  destruct (js_get_callback_info info 2) as [err argv].
  destruct (nonzero err); [unfold ret in H; simplify_eq; keeps_nothing_moved|].
  destruct (js_get_arraybuffer_info _) as [err1 handle].
  destruct (nonzero err1); [unfold ret in H; simplify_eq; keeps_nothing_moved|].
  destruct (js_get_array_length _) as [err2 cmd_len].
  destruct (nonzero err2); [unfold ret in H; simplify_eq; keeps_nothing_moved|].
  unfold bind at 1 in H.
  destruct (command_strings _ _ _ w) as [[args w1]|] eqn:Hargs; [|discriminate].
  apply command_strings_pure in Hargs. subst w1.
  run_cases; simpl; keeps_nothing_moved.
Qed.

Lemma get_property_keeps info w res w' :
  bare_mpv_get_property orc info w = Some (res, w') ->
  dims_kept (arraybuffers w) (arraybuffers w') /\ (render_wf w -> render_wf w').
Proof.
  unfold bare_mpv_get_property. intros H. run_cases; simpl; keeps_nothing_moved.
Qed.

Lemma set_property_keeps info w res w' :
  bare_mpv_set_property orc info w = Some (res, w') ->
  dims_kept (arraybuffers w) (arraybuffers w') /\ (render_wf w -> render_wf w').
Proof.
  unfold bare_mpv_set_property. intros H. run_cases; simpl; keeps_nothing_moved.
Qed.

Lemma render_update_keeps info w res w' :
  bare_mpv_render_update orc info w = Some (res, w') ->
  dims_kept (arraybuffers w) (arraybuffers w') /\ (render_wf w -> render_wf w').
Proof.
  unfold bare_mpv_render_update. intros H. run_cases; simpl; keeps_nothing_moved.
Qed.

Lemma create_keeps info w res w' :
  bare_mpv_create orc info w = Some (res, w') ->
  dims_kept (arraybuffers w) (arraybuffers w') /\ (render_wf w -> render_wf w').
Proof.
  unfold bare_mpv_create. intros H.
  run_cases; simpl; try congruence; try keeps_nothing_moved.
  all: unfold render_wf; simpl; rewrite insert_insert_eq; split.
  all: try (apply dims_kept_insert_fresh; apply fresh_arraybuffer).
  all: apply wf_insert_plain; discriminate.
Qed.

Lemma destroy_keeps info w res w' :
  bare_mpv_destroy info w = Some (res, w') ->
  dims_kept (arraybuffers w) (arraybuffers w') /\ (render_wf w -> render_wf w').
Proof.
  unfold bare_mpv_destroy. intros H.
  run_cases; simpl; try congruence; try keeps_nothing_moved.
  all: unfold render_wf; simpl; split.
  all: try (apply dims_kept_insert; intros; congruence).
  all: apply wf_insert_plain; discriminate.
Qed.

Lemma render_create_keeps info w res w' :
  bare_mpv_render_create orc info w = Some (res, w') ->
  dims_kept (arraybuffers w) (arraybuffers w') /\ (render_wf w -> render_wf w').
Proof.
  unfold bare_mpv_render_create. intros H.
  run_cases; simpl; try congruence; try keeps_nothing_moved.
  all: unfold render_wf; simpl; rewrite insert_insert_eq; split.
  all: try (apply dims_kept_insert_fresh; apply fresh_arraybuffer).
  all: first
    [ apply wf_no_buffer; reflexivity
    | apply wf_new_render;
      [ apply not_elem_of_dom; apply is_fresh
      | rewrite length_resize; apply Z2Nat.id; apply frame_size_nonneg ] ].
Qed.

Lemma render_frame_keeps info w res w' :
  bare_mpv_render_frame orc info w = Some (res, w') ->
  dims_kept (arraybuffers w) (arraybuffers w') /\ (render_wf w -> render_wf w').
Proof.
  unfold bare_mpv_render_frame. intros H.
  run_cases; simpl; try congruence; try keeps_nothing_moved.
  all: unfold render_wf; simpl; rewrite ?insert_insert_eq; split.
  all: try apply dims_kept_refl.
  all: try (apply dims_kept_insert_fresh; apply fresh_arraybuffer).
  all: intros Hwf.
  all: try (apply wf_insert_plain; [discriminate|]).
  all: match goal with
       | Hold : heap _ !! ?a = Some ?old |- wf_at _ (<[?a:=overwrite ?px ?old]> _) =>
           exact (wf_pixels _ _ _ _ _ Hold (overwrite_length px old) Hwf)
       end.
Qed.

Lemma render_free_keeps info w res w' :
  bare_mpv_render_free info w = Some (res, w') ->
  dims_kept (arraybuffers w) (arraybuffers w') /\ (render_wf w -> render_wf w').
Proof.
  unfold bare_mpv_render_free. intros H.
  run_cases; simpl; try congruence; try keeps_nothing_moved.
  all: repeat match goal with
              | Hl : <[_:=_]> _ !! _ = Some _ |- _ =>
                  rewrite lookup_insert_eq in Hl; simplify_eq
              end.
  all: unfold render_wf; simpl in *; rewrite ?insert_insert_eq; split.
  all: try (apply dims_kept_insert; intros; simplify_eq; eexists; split;
            [reflexivity | split; reflexivity]).
  all: intros Hwf.
  all: first
    [ eapply wf_release; eauto; reflexivity
    | eapply wf_same_buffer; eauto; reflexivity ].
Qed.

End Keeping.

Section Lifetime.

Variable orc : oracle.

Lemma exported_keeps name info w res w' :
  exported orc name info w = Some (res, w') ->
  dims_kept (arraybuffers w) (arraybuffers w') /\ (render_wf w -> render_wf w').
Proof.
  destruct name; simpl; intros H.
  - apply (create_keeps orc _ _ _ _ H).
  - apply (initialize_keeps orc _ _ _ _ H).
  - apply (destroy_keeps _ _ _ _ H).
  - apply (command_keeps orc _ _ _ _ H).
  - apply (get_property_keeps orc _ _ _ _ H).
  - apply (set_property_keeps orc _ _ _ _ H).
  - apply (render_create_keeps orc _ _ _ _ H).
  - apply (render_frame_keeps orc _ _ _ _ H).
  - apply (render_free_keeps _ _ _ _ H).
  - apply (render_update_keeps orc _ _ _ _ H).
Qed.

(** Whatever script code calls, in whatever order, render handles keep
    their dimensions and the worlds stay in order. *)
Lemma run_keeps calls w results w' :
  run orc calls w = Some (results, w') ->
  dims_kept (arraybuffers w) (arraybuffers w') /\ (render_wf w -> render_wf w').
Proof.
  revert w results w'. induction calls as [|[name info] rest IH];
    intros w results w' H; simpl in H.
  - unfold ret in H. simplify_eq. split; [apply dims_kept_refl | auto].
  - unfold bind, ret in H.
    destruct (exported orc name info w) as [[r w1]|] eqn:Hstep; [|discriminate].
    destruct (run orc rest w1) as [[rs w2]|] eqn:Hrest; [|discriminate].
    simplify_eq.
    destruct (exported_keeps _ _ _ _ _ Hstep) as [Hd1 Hwf1].
    destruct (IH _ _ _ Hrest) as [Hd2 Hwf2].
    split; [eapply dims_kept_trans; eauto | auto].
Qed.

(** Every world a script reaches from the empty one is in order. *)
Lemma run_wf calls results w :
  run orc calls empty_world = Some (results, w) -> render_wf w.
Proof.
  intros H. apply (run_keeps _ _ _ _ H). apply wf_empty.
Qed.

(** What [renderCreate] records in the handle it returns. *)
Lemma render_create_records e dw dh w handle w' :
  bare_mpv_render_create orc (call_info [e; JsNumber dw; JsNumber dh]) w
  = Some (Some (JsArrayBuffer handle), w') ->
  exists r, arraybuffers w' !! handle = Some (Render_block r)
            /\ width r = double_to_int32 dw /\ height r = double_to_int32 dh.
Proof.
  unfold bare_mpv_render_create. intros H. run_cases; simpl.
  all: rewrite lookup_insert_eq; eexists; split;
    [reflexivity | split; reflexivity].
Qed.

(** C9: the width and height [renderCreate] records in a render handle are
    the ones every later world shows for it, whichever exported functions
    run in between and whatever they are called with; and in a world the
    binding keeps in order, the pixel buffer, as long as the handle has
    one, has the size computed from those dimensions. *)
Theorem dimensions_immutable (e : js_value) (dw dh : double) (w0 : world)
    (handle : nat) (w1 : world) (calls : list (export * js_callback_info_t))
    (results : list js_result) (w2 : world) :
  bare_mpv_render_create orc (call_info [e; JsNumber dw; JsNumber dh]) w0
  = Some (Some (JsArrayBuffer handle), w1) ->
  run orc calls w1 = Some (results, w2) ->
  exists r,
    arraybuffers w2 !! handle = Some (Render_block r) /\
    width r = double_to_int32 dw /\
    height r = double_to_int32 dh /\
    (render_wf w0 -> buffer_ok w2 r = true).
Proof.
  intros Hcreate Hrun.
  destruct (render_create_records _ _ _ _ _ _ Hcreate) as (r1 & Hr1 & Hw1 & Hh1).
  destruct (render_create_keeps orc _ _ _ _ Hcreate) as [_ Hwf1].
  destruct (run_keeps _ _ _ _ Hrun) as [Hdims Hwf2].
  destruct (Hdims handle r1 Hr1) as (r2 & Hr2 & Hw2 & Hh2).
  exists r2. repeat split; try congruence.
  intros Hwf0. apply (Hwf2 (Hwf1 Hwf0) handle r2 Hr2).
Qed.

End Lifetime.

Lemma engine_setup_builds_engine_world :
  run steady_engine engine_setup empty_world
  = Some ([Some engine_handle; Some (js_create_int32 0)], engine_world).
Proof. vm_compute. reflexivity. Qed.

Lemma dimensions_immutable_witness :
  bare_mpv_render_create steady_engine
    (call_info [engine_handle; JsNumber 2%float; JsNumber 2%float]) engine_world
  = Some (Some render_handle, live_world) /\
  exists results w2,
    run steady_engine playback live_world = Some (results, w2) /\
    exists r,
      arraybuffers w2 !! 1%nat = Some (Render_block r) /\
      width r = 2 /\ height r = 2 /\ buffer_ok w2 r = true.
Proof.
  assert (Hcreate :
    bare_mpv_render_create steady_engine
      (call_info [engine_handle; JsNumber 2%float; JsNumber 2%float]) engine_world
    = Some (Some render_handle, live_world)) by (vm_compute; reflexivity).
  assert (Hrun : exists results w2,
    run steady_engine playback live_world = Some (results, w2))
    by (eexists; eexists; vm_compute; reflexivity).
  split; [exact Hcreate|].
  destruct Hrun as (results & w2 & Hrun). exists results, w2.
  split; [exact Hrun|].
  destruct (dimensions_immutable steady_engine _ _ _ _ _ _ _ _ _ Hcreate Hrun)
    as (r & Hr & Hw & Hh & Hok).
  exists r. split; [exact Hr|]. split; [exact Hw|]. split; [exact Hh|].
  apply Hok. exact (run_wf steady_engine _ _ _ engine_setup_builds_engine_world).
Defined.

(** ** Starting the engine and sending it commands *)

Section Forwarding.

Variable orc : oracle.

(** [initialize] sets the three fixed options in order, starts the engine
    and answers with the status of [mpv_initialize], whatever its sign. *)
Theorem initialize_passes_status (w : world) (handle : nat) (h : bare_mpv_handle_t) :
  arraybuffers w !! handle = Some (Engine_block h) ->
  bare_mpv_initialize orc (call_info [JsArrayBuffer handle]) w
  = Some (Some (js_create_int32
                  (lib_mpv_initialize orc
                     (trace w ++ [ Mpv_set_option_string (mpv h) "vo" "libmpv";
                                   Mpv_set_option_string (mpv h) "hwdec" "auto";
                                   Mpv_set_option_string (mpv h) "keep-open" "yes" ])
                     (mpv h))),
          log (Mpv_initialize (mpv h))
            (log (Mpv_set_option_string (mpv h) "keep-open" "yes")
               (log (Mpv_set_option_string (mpv h) "hwdec" "auto")
                  (log (Mpv_set_option_string (mpv h) "vo" "libmpv") w)))).
Proof.
  intros Hh. unfold bare_mpv_initialize. simpl.
  unfold bind, ret. rewrite (load_engine_at _ _ _ Hh).
  unfold mpv_set_option_string, mpv_initialize, native. simpl.
  rewrite <- !app_assoc. reflexivity.
Qed.

Lemma command_strings_of_strings (args : list string) (n i : nat) (w : world) :
  (i + n <= length args)%nat ->
  command_strings (JsArray (map JsString args)) i n w
  = Some (map c_str (take n (drop i args)), w).
Proof.
  revert i. induction n as [|n IH]; intros i Hlen; simpl.
  - reflexivity.
  - destruct (drop i args) as [|s rest] eqn:Hdrop.
    { apply (f_equal length) in Hdrop. rewrite length_drop in Hdrop.
      simpl in Hdrop. lia. }
    assert (Hnth : nth i (map JsString args) JsUndefined = JsString s).
    { rewrite <- (take_drop i args) at 1. rewrite Hdrop, map_app.
      rewrite app_nth2 by (rewrite length_map, length_take; lia).
      rewrite length_map, length_take.
      replace (i - i `min` length args)%nat with 0%nat by lia. reflexivity. }
    unfold bind, ret. rewrite Hnth. simpl.
    rewrite IH by lia.
    assert (Hrest : drop (S i) args = rest).
    { replace (S i) with (i + 1)%nat by lia.
      rewrite <- drop_drop, Hdrop. reflexivity. }
    rewrite Hrest. reflexivity.
Qed.

(** [command] hands the strings of its array argument to [mpv_command], in
    order and as C strings, and answers with the status of that call. *)
Theorem command_forwards (w : world) (handle : nat) (h : bare_mpv_handle_t)
    (args : list string) :
  arraybuffers w !! handle = Some (Engine_block h) ->
  Z.of_nat (length args) < 2 ^ 32 - 1 ->
  bare_mpv_command orc
    (call_info [JsArrayBuffer handle; JsArray (map JsString args)]) w
  = Some (Some (js_create_int32
                  (lib_mpv_command orc (trace w) (mpv h) (map c_str args))),
          log (Mpv_command (mpv h) (map c_str args)) w).
Proof.
  intros Hh Hlen. unfold bare_mpv_command. simpl.
  rewrite length_map. unfold to_uint32.
  rewrite (Z.mod_small (Z.of_nat (length args))) by lia.
  rewrite (Z.mod_small (Z.of_nat (length args) + 1)) by lia.
  rewrite Nat2Z.id. unfold bind at 1. unfold arg. cbn [nth].
  rewrite command_strings_of_strings by lia.
  rewrite drop_0, firstn_all.
  destruct (Z.leb_spec (Z.of_nat (length args) + 1) (Z.of_nat (length args)));
    [lia|].
  unfold bind, ret. rewrite (load_engine_at _ _ _ Hh). reflexivity.
Qed.

(** [renderUpdate] answers whether bit 0 of the update flags, the
    new-frame bit, is set; the other bits play no part. *)
Theorem render_update_frame_bit (w : world) (handle : nat) (r : bare_mpv_render_t) :
  arraybuffers w !! handle = Some (Render_block r) ->
  bare_mpv_render_update orc (call_info [JsArrayBuffer handle]) w
  = Some (Some (JsBoolean
                  (Z.testbit (lib_mpv_render_context_update orc (trace w) (ctx r)) 0)),
          log (Mpv_render_context_update (ctx r)) w).
Proof.
  intros Hh. rewrite (render_update_unguarded orc _ _ _ Hh).
  do 4 f_equal. unfold nonzero, MPV_RENDER_UPDATE_FRAME.
  change 1 with (Z.ones 1). rewrite Z.land_ones by lia.
  rewrite Z.bit0_odd. change (2 ^ 1) with 2. rewrite Zmod_odd.
  destruct (Z.odd _); reflexivity.
Qed.

(** A render handle freed right after its creation leaves the C heap as
    it was before the handle existed. *)
Theorem render_create_then_free (w0 : world) (e : js_value) (dw dh : double)
    (handle : nat) (w1 : world) :
  bare_mpv_render_create orc (call_info [e; JsNumber dw; JsNumber dh]) w0
  = Some (Some (JsArrayBuffer handle), w1) ->
  exists r,
    arraybuffers w1 !! handle = Some (Render_block r) /\
    bare_mpv_render_free (call_info [JsArrayBuffer handle]) w1
    = Some (NULL, after_free handle r w1) /\
    heap (after_free handle r w1) = heap w0 /\
    trace (after_free handle r w1) = trace w1 ++ release_calls r.
Proof.
  unfold bare_mpv_render_create. intros H. run_cases.
  all: eexists; split; [simpl; apply lookup_insert_eq|].
  all: split; [apply render_free_releases; [simpl; apply lookup_insert_eq|]|].
  all: try reflexivity.
  - unfold buffer_ok, allocated. simpl. rewrite lookup_insert_eq.
    rewrite length_resize. apply Z.eqb_eq. apply Z2Nat.id. apply frame_size_nonneg.
  - simpl. split; [|reflexivity].
    apply delete_insert_id. apply not_elem_of_dom. apply is_fresh.
  - simpl. auto.
Qed.

(** In every world a script reaches from the empty one, the buffer of each
    render handle is a live allocation of the size its dimensions give,
    and no two handles share a buffer. *)
Theorem reachable_worlds_in_order (calls : list (export * js_callback_info_t))
    (results : list js_result) (w : world) :
  run orc calls empty_world = Some (results, w) ->
  forall handle r,
    arraybuffers w !! handle = Some (Render_block r) ->
    buffer_ok w r = true /\
    forall handle' r' a,
      arraybuffers w !! handle' = Some (Render_block r') ->
      buffer r = Some a -> buffer r' = Some a -> handle' = handle.
Proof.
  intros H. apply (run_keeps orc _ _ _ _ H). apply wf_empty.
Qed.

End Forwarding.

Lemma initialize_passes_status_witness :
  arraybuffers live_world !! 0%nat = Some (Engine_block live_engine) /\
  option_map fst
    (bare_mpv_initialize steady_engine (call_info [engine_handle]) live_world)
  = Some (Some (js_create_int32 0)).
Proof.
  split; [reflexivity|]. unfold engine_handle.
  rewrite (initialize_passes_status steady_engine live_world 0 live_engine eq_refl).
  reflexivity.
Defined.

Lemma command_forwards_witness :
  arraybuffers live_world !! 0%nat = Some (Engine_block live_engine) /\
  bare_mpv_command steady_engine
    (call_info [engine_handle; JsArray [JsString "loadfile"; JsString "test.mkv"]])
    live_world
  = Some (Some (js_create_int32 0),
          log (Mpv_command (Some 1%positive) ["loadfile"; "test.mkv"]%string)
              live_world).
Proof.
  split; [reflexivity|].
  exact (command_forwards steady_engine live_world 0 live_engine
           ["loadfile"; "test.mkv"]%string eq_refl eq_refl).
Defined.

Lemma render_update_frame_bit_witness :
  arraybuffers live_world !! 1%nat = Some (Render_block live_render) /\
  bare_mpv_render_update steady_engine (call_info [render_handle]) live_world
  = Some (Some (JsBoolean true),
          log (Mpv_render_context_update (Some 2%positive)) live_world).
Proof.
  split; [reflexivity|].
  exact (render_update_frame_bit steady_engine live_world 1 live_render eq_refl).
Defined.

Lemma render_create_then_free_witness :
  bare_mpv_render_create steady_engine
    (call_info [engine_handle; JsNumber 2%float; JsNumber 2%float]) engine_world
  = Some (Some render_handle, live_world) /\
  exists r,
    arraybuffers live_world !! 1%nat = Some (Render_block r) /\
    bare_mpv_render_free (call_info [render_handle]) live_world
    = Some (NULL, after_free 1 r live_world) /\
    heap (after_free 1 r live_world) = heap engine_world /\
    trace (after_free 1 r live_world) = trace live_world ++ release_calls r.
Proof.
  assert (Hcreate :
    bare_mpv_render_create steady_engine
      (call_info [engine_handle; JsNumber 2%float; JsNumber 2%float]) engine_world
    = Some (Some render_handle, live_world)) by (vm_compute; reflexivity).
  split; [exact Hcreate|].
  exact (render_create_then_free steady_engine _ _ _ _ _ _ Hcreate).
Defined.

Lemma reachable_worlds_in_order_witness :
  run steady_engine setup empty_world
  = Some ([Some engine_handle; Some (js_create_int32 0); Some render_handle],
          live_world) /\
  buffer_ok live_world live_render = true.
Proof.
  split; [exact setup_builds_live_world|].
  exact (proj1 (reachable_worlds_in_order steady_engine _ _ _
                  setup_builds_live_world 1%nat live_render eq_refl)).
Defined.

(** ** The two guards on the arguments *)



(** ** Construction *)

Section Construction.

Variable orc : oracle.

(** [create] has three outcomes.  Without an engine it throws.  With an
    engine but no array buffer for the handle it destroys the engine it
    just made and hands back a null pointer, throwing nothing.  Otherwise
    it hands back an array buffer that did not exist before and records
    the engine in it. *)
Theorem create_outcomes (info : js_callback_info_t) (w : world) :
  (lib_mpv_create orc (trace w) = NULL ->
     bare_mpv_create orc info w
     = Some (NULL, throw "Failed to create mpv instance" (log Mpv_create w))) /\
  (forall e, lib_mpv_create orc (trace w) = Some e ->
     rt_create_arraybuffer orc (trace w ++ [Mpv_create]) sizeof_bare_mpv_handle_t <> 0 ->
     bare_mpv_create orc info w = Some (NULL, after_failed_create e w)) /\
  (forall e, lib_mpv_create orc (trace w) = Some e ->
     rt_create_arraybuffer orc (trace w ++ [Mpv_create]) sizeof_bare_mpv_handle_t = 0 ->
     bare_mpv_create orc info w
     = Some (Some (JsArrayBuffer (fresh (dom (arraybuffers w)))), after_create e w)
     /\ arraybuffers w !! fresh (dom (arraybuffers w)) = None
     /\ arraybuffers (after_create e w) !! fresh (dom (arraybuffers w))
        = Some (Engine_block {| mpv := Some e |})).
Proof.
  unfold bare_mpv_create, bind, ret, mpv_create, native.
  split; [|split].
  - intros ->. reflexivity.
  - intros e -> Herr. simpl. unfold js_create_arraybuffer. simpl.
    assert (Hnz : nonzero (rt_create_arraybuffer orc (trace w ++ [Mpv_create])
                             sizeof_bare_mpv_handle_t) = true).
    { unfold nonzero. apply negb_true_iff. apply Z.eqb_neq. exact Herr. }
    rewrite Hnz. simpl. rewrite Hnz. reflexivity.
  - intros e -> Hok. split; [|split].
    + simpl. unfold js_create_arraybuffer. simpl. rewrite Hok. simpl.
      unfold store_block. simpl. rewrite lookup_insert_eq.
      unfold after_create. same_world.
    + apply fresh_arraybuffer.
    + unfold after_create. simpl. apply lookup_insert_eq.
Qed.

End Construction.

Lemma create_outcomes_witness :
  lib_mpv_create refusing_runtime (trace empty_world) = Some 1%positive /\
  rt_create_arraybuffer refusing_runtime (trace empty_world ++ [Mpv_create])
    sizeof_bare_mpv_handle_t <> 0 /\
  bare_mpv_create refusing_runtime (call_info []) empty_world
  = Some (NULL, after_failed_create 1%positive empty_world) /\
  trace (after_failed_create 1%positive empty_world)
  = [Mpv_create; Mpv_destroy (Some 1%positive)] /\
  thrown (after_failed_create 1%positive empty_world) = [].
Proof.
  split; [reflexivity|]. split; [discriminate|]. split.
  - exact (proj1 (proj2 (create_outcomes refusing_runtime (call_info []) empty_world))
             1%positive eq_refl ltac:(discriminate)).
  - split; reflexivity.
Defined.

Section RenderConstruction.

Variable orc : oracle.
Variables (w : world) (handle : nat) (h : bare_mpv_handle_t) (dw dh : double).

Hypothesis Hengine : arraybuffers w !! handle = Some (Engine_block h).

Let answer := lib_mpv_render_context_create orc (trace w) (mpv h).
Let made := Mpv_render_context_create (mpv h).
Let info := call_info [JsArrayBuffer handle; JsNumber dw; JsNumber dh].

Lemma render_create_begins :
  bare_mpv_render_create orc info w
  = (if fst answer <? 0 then
       js_throw_error "Failed to create render context";; ret NULL
     else
       let* '(err, handle', result) := js_create_arraybuffer orc sizeof_bare_mpv_render_t in
       if nonzero err then mpv_render_context_free (snd answer);; ret NULL
       else
         let* pixels := malloc orc (frame_size (double_to_int32 dw) (double_to_int32 dh)) in
         store_block handle'
           (Render_block {| ctx := snd answer; width := double_to_int32 dw;
                            height := double_to_int32 dh; buffer := pixels |});;
         ret (Some result)) (log made w).
Proof.
  unfold bare_mpv_render_create. simpl.
  unfold bind at 1. simpl. unfold bind at 1. simpl.
  unfold bind at 1. rewrite (load_engine_at _ _ _ Hengine).
  unfold bind at 1. unfold mpv_render_context_create, native.
  subst answer made. destruct (lib_mpv_render_context_create _ _ _) as [status c].
  reflexivity.
Qed.

(** [renderCreate] gives up in two ways.  When the engine refuses the
    render context it throws, having made that one native call.  When the
    runtime has no array buffer for the handle it frees the context it
    obtained and hands back a null pointer, throwing nothing.  Either way
    no array buffer is added and the C heap is not touched. *)
Theorem render_create_failure_paths :
  (fst answer < 0 ->
     bare_mpv_render_create orc info w
     = Some (NULL, throw "Failed to create render context" (log made w))) /\
  (0 <= fst answer ->
     rt_create_arraybuffer orc (trace w ++ [made]) sizeof_bare_mpv_render_t <> 0 ->
     bare_mpv_render_create orc info w
     = Some (NULL, log (Mpv_render_context_free (snd answer)) (log made w))).
Proof.
  rewrite render_create_begins. split.
  - intros Hneg. destruct (Z.ltb_spec (fst answer) 0); [reflexivity | lia].
  - intros Hpos Herr. destruct (Z.ltb_spec (fst answer) 0); [lia|].
    unfold bind, js_create_arraybuffer. simpl.
    assert (Hnz : nonzero (rt_create_arraybuffer orc (trace w ++ [made])
                             sizeof_bare_mpv_render_t) = true).
    { unfold nonzero. apply negb_true_iff. apply Z.eqb_neq. exact Herr. }
    rewrite Hnz. simpl. rewrite Hnz. reflexivity.
Qed.

(** A pixel buffer that cannot be allocated goes unreported: [renderCreate]
    hands back a handle as usual, with a null buffer, throwing nothing,
    and [renderFrame] on that handle answers [null] without a native call. *)
Theorem render_create_without_pixels :
  0 <= fst answer ->
  rt_create_arraybuffer orc (trace w ++ [made]) sizeof_bare_mpv_render_t = 0 ->
  lib_malloc orc (trace w ++ [made])
    (frame_size (double_to_int32 dw) (double_to_int32 dh)) = None ->
  exists w1,
    bare_mpv_render_create orc info w
    = Some (Some (JsArrayBuffer (fresh (dom (arraybuffers w)))), w1) /\
    thrown w1 = thrown w /\
    arraybuffers w1 !! fresh (dom (arraybuffers w))
    = Some (Render_block {| ctx := snd answer; width := double_to_int32 dw;
                            height := double_to_int32 dh; buffer := NULL |}) /\
    bare_mpv_render_frame orc
      (call_info [JsArrayBuffer (fresh (dom (arraybuffers w)))]) w1
    = Some (Some JsNull, w1).
Proof.
  intros Hpos Hrt Hmalloc. rewrite render_create_begins.
  destruct (Z.ltb_spec (fst answer) 0); [lia|].
  unfold bind, js_create_arraybuffer. simpl. rewrite Hrt. simpl.
  unfold malloc. simpl. rewrite Hmalloc.
  unfold store_block. simpl. rewrite lookup_insert_eq.
  eexists. split; [reflexivity|]. split; [reflexivity|].
  split; [simpl; apply lookup_insert_eq|].
  eapply render_frame_absent; [simpl; apply lookup_insert_eq|].
  unfold absent. simpl. apply orb_true_r.
Qed.

End RenderConstruction.

Lemma render_create_failure_paths_witness :
  arraybuffers engine_world !! 0%nat = Some (Engine_block live_engine) /\
  bare_mpv_render_create broken_engine
    (call_info [engine_handle; JsNumber 2%float; JsNumber 2%float]) engine_world
  = Some (NULL,
          throw "Failed to create render context"
            (log (Mpv_render_context_create (Some 1%positive)) engine_world)) /\
  bare_mpv_render_create refusing_runtime
    (call_info [engine_handle; JsNumber 2%float; JsNumber 2%float]) engine_world
  = Some (NULL,
          log (Mpv_render_context_free (Some 2%positive))
            (log (Mpv_render_context_create (Some 1%positive)) engine_world)).
Proof.
  split; [reflexivity|]. split.
  - exact (proj1 (render_create_failure_paths broken_engine engine_world 0 live_engine
                    2%float 2%float eq_refl) eq_refl).
  - exact (proj2 (render_create_failure_paths refusing_runtime engine_world 0 live_engine
                    2%float 2%float eq_refl) ltac:(discriminate) ltac:(discriminate)).
Defined.

Lemma render_create_without_pixels_witness :
  arraybuffers engine_world !! 0%nat = Some (Engine_block live_engine) /\
  lib_malloc exhausted_allocator
    (trace engine_world ++ [Mpv_render_context_create (Some 1%positive)]) 16 = None /\
  exists w1,
    bare_mpv_render_create exhausted_allocator
      (call_info [engine_handle; JsNumber 2%float; JsNumber 2%float]) engine_world
    = Some (Some render_handle, w1) /\
    thrown w1 = [] /\
    bare_mpv_render_frame exhausted_allocator (call_info [render_handle]) w1
    = Some (Some JsNull, w1).
Proof.
  split; [reflexivity|]. split; [reflexivity|].
  destruct (render_create_without_pixels exhausted_allocator engine_world 0 live_engine
              2%float 2%float eq_refl ltac:(discriminate) eq_refl eq_refl)
    as (w1 & Hcreate & Hthrown & _ & Hframe).
  exists w1. split; [exact Hcreate|]. split; [exact Hthrown | exact Hframe].
Defined.

(** ** What becomes of array buffers and allocations *)

Section Fading.

Implicit Types (ab : gmap nat block) (hp : gmap addr (list byte)).

Lemma fades_refl (p : ptr) : fades p p.
Proof. left. reflexivity. Qed.

Lemma fades_null (p : ptr) : fades p NULL.
Proof. right. reflexivity. Qed.

Lemma fades_trans (p1 p2 p3 : ptr) : fades p1 p2 -> fades p2 p3 -> fades p1 p3.
Proof.
  unfold fades. intros [->| ->] [->| ->]; auto.
Qed.

Lemma block_fades_refl (b : block) : block_fades b b.
Proof. destruct b; simpl; auto using fades_refl. Qed.

Lemma block_fades_trans (b1 b2 b3 : block) :
  block_fades b1 b2 -> block_fades b2 b3 -> block_fades b1 b3.
Proof.
  destruct b1, b2, b3; simpl; try tauto.
  - apply fades_trans.
  - intros (Hc1 & Hb1 & Hw1 & Hh1) (Hc2 & Hb2 & Hw2 & Hh2).
    repeat split; try congruence; eapply fades_trans; eauto.
  - congruence.
Qed.

Lemma store_fades_refl ab : store_fades ab ab.
Proof. intros id b Hb. exists b. auto using block_fades_refl. Qed.

Lemma store_fades_trans ab1 ab2 ab3 :
  store_fades ab1 ab2 -> store_fades ab2 ab3 -> store_fades ab1 ab3.
Proof.
  intros H12 H23 id b1 Hb1.
  destruct (H12 id b1 Hb1) as (b2 & Hb2 & Hf12).
  destruct (H23 id b2 Hb2) as (b3 & Hb3 & Hf23).
  exists b3. split; [exact Hb3 | eapply block_fades_trans; eauto].
Qed.

Lemma store_fades_insert ab id b0 b :
  ab !! id = Some b0 -> block_fades b0 b -> store_fades ab (<[id:=b]> ab).
Proof.
  intros Hb0 Hf id' b' Hb'. destruct (decide (id' = id)) as [->|Hne].
  - exists b. rewrite lookup_insert_eq. split; [reflexivity | congruence].
  - exists b'. rewrite lookup_insert_ne by congruence.
    auto using block_fades_refl.
Qed.

Lemma store_fades_insert_fresh ab id b :
  ab !! id = None -> store_fades ab (<[id:=b]> ab).
Proof.
  intros Hid id' b' Hb'. exists b'.
  rewrite lookup_insert_ne by congruence. auto using block_fades_refl.
Qed.

(** Ownership of the heap under the updates the binding makes. *)
Lemma owned_insert_plain ab hp id b :
  (forall r, ab !! id <> Some (Render_block r)) ->
  owned_at ab hp -> owned_at (<[id:=b]> ab) hp.
Proof.
  intros Hid Hown a px Ha. destruct (Hown a px Ha) as (id0 & r0 & Hr0 & Hb0).
  exists id0, r0. split; [|exact Hb0].
  rewrite lookup_insert_ne; [exact Hr0|]. intros ->. apply (Hid r0 Hr0).
Qed.

Lemma owned_same_buffer ab hp id r r' :
  ab !! id = Some (Render_block r) -> buffer r' = buffer r ->
  owned_at ab hp -> owned_at (<[id:=Render_block r']> ab) hp.
Proof.
  intros Hid Hbuf Hown a px Ha. destruct (Hown a px Ha) as (id0 & r0 & Hr0 & Hb0).
  destruct (decide (id0 = id)) as [->|Hne].
  - exists id, r'. rewrite lookup_insert_eq. split; [reflexivity | congruence].
  - exists id0, r0. rewrite lookup_insert_ne by congruence. auto.
Qed.

Lemma owned_pixels ab hp a px old :
  hp !! a = Some old -> owned_at ab hp -> owned_at ab (<[a:=px]> hp).
Proof.
  intros Hold Hown a' px' Ha'. destruct (decide (a' = a)) as [->|Hne].
  - apply (Hown a old Hold).
  - rewrite lookup_insert_ne in Ha' by congruence. apply (Hown a' px' Ha').
Qed.

Lemma owned_new_render ab hp id r a px :
  (forall r0, ab !! id <> Some (Render_block r0)) -> buffer r = Some a ->
  owned_at ab hp -> owned_at (<[id:=Render_block r]> ab) (<[a:=px]> hp).
Proof.
  intros Hid Hbuf Hown a' px' Ha'. destruct (decide (a' = a)) as [->|Hne].
  - exists id, r. rewrite lookup_insert_eq. auto.
  - rewrite lookup_insert_ne in Ha' by congruence.
    destruct (Hown a' px' Ha') as (id0 & r0 & Hr0 & Hb0).
    exists id0, r0. split; [|exact Hb0].
    rewrite lookup_insert_ne; [exact Hr0|]. intros ->. apply (Hid r0 Hr0).
Qed.

Lemma owned_release ab hp id r r' a :
  ab !! id = Some (Render_block r) -> buffer r = Some a ->
  owned_at ab hp -> owned_at (<[id:=Render_block r']> ab) (delete a hp).
Proof.
  intros Hid Hbuf Hown a' px' Ha'.
  destruct (decide (a' = a)) as [->|Hne].
  { rewrite lookup_delete_eq in Ha'. discriminate. }
  rewrite lookup_delete_ne in Ha' by congruence.
  destruct (Hown a' px' Ha') as (id0 & r0 & Hr0 & Hb0).
  exists id0, r0. split; [|exact Hb0].
  rewrite lookup_insert_ne; [exact Hr0|]. intros ->. congruence.
Qed.


End Fading.

Ltac trace_budget :=
  rewrite <- ?app_assoc; simpl;
  first [ exists []; split; [symmetry; apply app_nil_r | simpl; lia]
        | eexists; split; [reflexivity | simpl; lia] ].

Ltac only_logged :=
  split; [apply store_fades_refl | split; [simpl; tauto | trace_budget]].

Section Effects.

Variable orc : oracle.

Lemma initialize_effect info w res w' :
  bare_mpv_initialize orc info w = Some (res, w') ->
  store_fades (arraybuffers w) (arraybuffers w')
  /\ (owned_at (arraybuffers w) (heap w) -> owned_at (arraybuffers w') (heap w'))
  /\ exists calls, trace w' = trace w ++ calls
                   /\ (length calls <= native_budget initialize)%nat.
Proof.
  unfold bare_mpv_initialize. intros H. run_cases; only_logged.
Qed.

Lemma command_effect info w res w' :
  bare_mpv_command orc info w = Some (res, w') ->
  store_fades (arraybuffers w) (arraybuffers w')
  /\ (owned_at (arraybuffers w) (heap w) -> owned_at (arraybuffers w') (heap w'))
  /\ exists calls, trace w' = trace w ++ calls
                   /\ (length calls <= native_budget command)%nat.
Proof.
  unfold bare_mpv_command. intros H. unfold bind at 1 in H.
  destruct (js_get_callback_info info 2) as [err argv].
  destruct (nonzero err); [unfold ret in H; simplify_eq; only_logged|].
  destruct (js_get_arraybuffer_info _) as [err1 handle].
  destruct (nonzero err1); [unfold ret in H; simplify_eq; only_logged|].
  destruct (js_get_array_length _) as [err2 cmd_len].
  destruct (nonzero err2); [unfold ret in H; simplify_eq; only_logged|].
  unfold bind at 1 in H.
  destruct (command_strings _ _ _ w) as [[args w1]|] eqn:Hargs; [|discriminate].
  apply command_strings_pure in Hargs. subst w1.
  run_cases; only_logged.
Qed.

Lemma get_property_effect info w res w' :
  bare_mpv_get_property orc info w = Some (res, w') ->
  store_fades (arraybuffers w) (arraybuffers w')
  /\ (owned_at (arraybuffers w) (heap w) -> owned_at (arraybuffers w') (heap w'))
  /\ exists calls, trace w' = trace w ++ calls
                   /\ (length calls <= native_budget getProperty)%nat.
Proof.
  unfold bare_mpv_get_property. intros H. run_cases; only_logged.
Qed.

Lemma set_property_effect info w res w' :
  bare_mpv_set_property orc info w = Some (res, w') ->
  store_fades (arraybuffers w) (arraybuffers w')
  /\ (owned_at (arraybuffers w) (heap w) -> owned_at (arraybuffers w') (heap w'))
  /\ exists calls, trace w' = trace w ++ calls
                   /\ (length calls <= native_budget setProperty)%nat.
Proof.
  unfold bare_mpv_set_property. intros H. run_cases; only_logged.
Qed.

Lemma render_update_effect info w res w' :
  bare_mpv_render_update orc info w = Some (res, w') ->
  store_fades (arraybuffers w) (arraybuffers w')
  /\ (owned_at (arraybuffers w) (heap w) -> owned_at (arraybuffers w') (heap w'))
  /\ exists calls, trace w' = trace w ++ calls
                   /\ (length calls <= native_budget renderUpdate)%nat.
Proof.
  unfold bare_mpv_render_update. intros H. run_cases; only_logged.
Qed.

Lemma create_effect info w res w' :
  bare_mpv_create orc info w = Some (res, w') ->
  store_fades (arraybuffers w) (arraybuffers w')
  /\ (owned_at (arraybuffers w) (heap w) -> owned_at (arraybuffers w') (heap w'))
  /\ exists calls, trace w' = trace w ++ calls
                   /\ (length calls <= native_budget create)%nat.
Proof.
  unfold bare_mpv_create. intros H.
  run_cases; try congruence; try only_logged.
  all: simpl; rewrite insert_insert_eq.
  all: pose proof (fresh_arraybuffer w) as Hfresh.
  all: split; [apply store_fades_insert_fresh; exact Hfresh|].
  all: split; [apply owned_insert_plain; intros r; congruence | trace_budget].
Qed.

Lemma destroy_effect info w res w' :
  bare_mpv_destroy info w = Some (res, w') ->
  store_fades (arraybuffers w) (arraybuffers w')
  /\ (owned_at (arraybuffers w) (heap w) -> owned_at (arraybuffers w') (heap w'))
  /\ exists calls, trace w' = trace w ++ calls
                   /\ (length calls <= native_budget destroy)%nat.
Proof.
  unfold bare_mpv_destroy. intros H.
  run_cases; try congruence; try only_logged.
  all: simpl.
  all: split; [eapply store_fades_insert; [eassumption | simpl; apply fades_null]|].
  all: split; [apply owned_insert_plain; intros r; congruence | trace_budget].
Qed.

Lemma render_create_effect info w res w' :
  bare_mpv_render_create orc info w = Some (res, w') ->
  store_fades (arraybuffers w) (arraybuffers w')
  /\ (owned_at (arraybuffers w) (heap w) -> owned_at (arraybuffers w') (heap w'))
  /\ exists calls, trace w' = trace w ++ calls
                   /\ (length calls <= native_budget renderCreate)%nat.
Proof.
  unfold bare_mpv_render_create. intros H.
  run_cases; try congruence; try only_logged.
  all: simpl; rewrite insert_insert_eq.
  all: match goal with
       | |- context [fresh (dom (arraybuffers ?w0))] =>
           pose proof (fresh_arraybuffer w0) as Hfresh
       end.
  all: split; [apply store_fades_insert_fresh; exact Hfresh|].
  all: split; [|trace_budget].
  all: first
    [ apply owned_new_render; [intros r; congruence | reflexivity]
    | apply owned_insert_plain; intros r; congruence ].
Qed.

Lemma render_frame_effect info w res w' :
  bare_mpv_render_frame orc info w = Some (res, w') ->
  store_fades (arraybuffers w) (arraybuffers w')
  /\ (owned_at (arraybuffers w) (heap w) -> owned_at (arraybuffers w') (heap w'))
  /\ exists calls, trace w' = trace w ++ calls
                   /\ (length calls <= native_budget renderFrame)%nat.
Proof.
  unfold bare_mpv_render_frame. intros H.
  run_cases; try congruence; try only_logged.
  all: simpl; rewrite ?insert_insert_eq.
  all: match goal with
       | |- context [arraybuffers ?w0] =>
           pose proof (fresh_arraybuffer w0) as Hfresh
       end.
  all: split;
    [first [apply store_fades_refl | apply store_fades_insert_fresh; exact Hfresh]|].
  all: split; [|trace_budget].
  all: intros Hown;
    try (apply owned_insert_plain; [intros r; congruence|]);
    eapply owned_pixels; eauto.
Qed.

Lemma render_free_effect info w res w' :
  bare_mpv_render_free info w = Some (res, w') ->
  store_fades (arraybuffers w) (arraybuffers w')
  /\ (owned_at (arraybuffers w) (heap w) -> owned_at (arraybuffers w') (heap w'))
  /\ exists calls, trace w' = trace w ++ calls
                   /\ (length calls <= native_budget renderFree)%nat.
Proof.
  unfold bare_mpv_render_free. intros H.
  run_cases; try congruence; try only_logged.
  all: repeat match goal with
              | Hl : <[_:=_]> _ !! _ = Some _ |- _ =>
                  rewrite lookup_insert_eq in Hl; simplify_eq
              end.
  all: simpl in *; rewrite ?insert_insert_eq.
  all: split;
    [eapply store_fades_insert;
       [eassumption
       | simpl; repeat split; auto using fades_refl, fades_null]|].
  all: split; [|trace_budget].
  all: first
    [ eapply owned_release; eassumption
    | eapply owned_same_buffer; [eassumption | reflexivity] ].
Qed.

End Effects.

Section Scripts.

Variable orc : oracle.

Lemma exported_effect name info w res w' :
  exported orc name info w = Some (res, w') ->
  store_fades (arraybuffers w) (arraybuffers w')
  /\ (owned_at (arraybuffers w) (heap w) -> owned_at (arraybuffers w') (heap w'))
  /\ exists calls, trace w' = trace w ++ calls
                   /\ (length calls <= native_budget name)%nat.
Proof.
  destruct name; simpl; intros H.
  - apply (create_effect orc _ _ _ _ H).
  - apply (initialize_effect orc _ _ _ _ H).
  - apply (destroy_effect _ _ _ _ H).
  - apply (command_effect orc _ _ _ _ H).
  - apply (get_property_effect orc _ _ _ _ H).
  - apply (set_property_effect orc _ _ _ _ H).
  - apply (render_create_effect orc _ _ _ _ H).
  - apply (render_frame_effect orc _ _ _ _ H).
  - apply (render_free_effect _ _ _ _ H).
  - apply (render_update_effect orc _ _ _ _ H).
Qed.

Lemma run_effect calls w results w' :
  run orc calls w = Some (results, w') ->
  store_fades (arraybuffers w) (arraybuffers w')
  /\ (owned_at (arraybuffers w) (heap w) -> owned_at (arraybuffers w') (heap w')).
Proof.
  revert w results w'. induction calls as [|[name info] rest IH];
    intros w results w' H; simpl in H.
  - unfold ret in H. simplify_eq. split; [apply store_fades_refl | auto].
  - unfold bind, ret in H.
    destruct (exported orc name info w) as [[r w1]|] eqn:Hstep; [|discriminate].
    destruct (run orc rest w1) as [[rs w2]|] eqn:Hrest; [|discriminate].
    simplify_eq.
    destruct (exported_effect _ _ _ _ _ Hstep) as (Hf1 & Ho1 & _).
    destruct (IH _ _ _ Hrest) as [Hf2 Ho2].
    split; [eapply store_fades_trans; eauto | auto].
Qed.

(** One invocation of an exported function only adds to the log of native
    calls, and adds at most as many as its budget: two for [create],
    [renderCreate] and [renderFree], four for [initialize] and
    [getProperty], one for each of the others. *)
Theorem native_call_budget (name : export) (info : js_callback_info_t)
    (w : world) (res : js_result) (w' : world) :
  exported orc name info w = Some (res, w') ->
  exists calls, trace w' = trace w ++ calls
                /\ (length calls <= native_budget name)%nat.
Proof.
  intros H. apply (exported_effect _ _ _ _ _ H).
Qed.

(** Whatever a script calls, no array buffer goes away or changes kind: a
    frame handed out keeps its bytes, and the pointers in a handle, the
    engine of an engine handle and the context and buffer of a render
    handle, stay as they are or become null; none is ever replaced. *)
Theorem handles_only_fade (calls : list (export * js_callback_info_t))
    (w : world) (results : list js_result) (w' : world) :
  run orc calls w = Some (results, w') ->
  (forall id bytes,
     arraybuffers w !! id = Some (Bytes_block bytes) ->
     arraybuffers w' !! id = Some (Bytes_block bytes)) /\
  (forall id h,
     arraybuffers w !! id = Some (Engine_block h) ->
     exists h', arraybuffers w' !! id = Some (Engine_block h')
                /\ fades (mpv h) (mpv h')) /\
  (forall id r,
     arraybuffers w !! id = Some (Render_block r) ->
     exists r', arraybuffers w' !! id = Some (Render_block r')
                /\ fades (ctx r) (ctx r') /\ fades (buffer r) (buffer r')).
Proof.
  intros H. destruct (run_effect _ _ _ _ H) as [Hfades _].
  split; [|split].
  - intros id bytes Hb. destruct (Hfades id _ Hb) as (b' & Hb' & Hf).
    destruct b'; simpl in Hf; try tauto. congruence.
  - intros id h Hb. destruct (Hfades id _ Hb) as (b' & Hb' & Hf).
    destruct b' as [h'| |]; simpl in Hf; try tauto. eauto.
  - intros id r Hb. destruct (Hfades id _ Hb) as (b' & Hb' & Hf).
    destruct b' as [|r'|]; simpl in Hf; try tauto.
    exists r'. tauto.
Qed.


End Scripts.

Lemma native_call_budget_witness :
  exists w',
    exported steady_engine getProperty
      (call_info [engine_handle; JsString "path"]) live_world
    = Some (Some (JsString "test.mkv"), w') /\
    exists calls, trace w' = trace live_world ++ calls /\ (length calls <= 4)%nat.
Proof.
  assert (Hrun : exists w',
    exported steady_engine getProperty
      (call_info [engine_handle; JsString "path"]) live_world
    = Some (Some (JsString "test.mkv"), w'))
    by (eexists; vm_compute; reflexivity).
  destruct Hrun as (w' & Hrun). exists w'. split; [exact Hrun|].
  exact (native_call_budget steady_engine _ _ _ _ _ Hrun).
Defined.

Lemma handles_only_fade_witness :
  exists results w',
    run steady_engine playback live_world = Some (results, w') /\
    exists r',
      arraybuffers w' !! 1%nat = Some (Render_block r') /\
      fades (ctx live_render) (ctx r') /\ fades (buffer live_render) (buffer r').
Proof.
  assert (Hrun : exists results w',
    run steady_engine playback live_world = Some (results, w'))
    by (eexists; eexists; vm_compute; reflexivity).
  destruct Hrun as (results & w' & Hrun). exists results, w'.
  split; [exact Hrun|].
  exact (proj2 (proj2 (handles_only_fade steady_engine _ _ _ _ Hrun))
           1%nat live_render eq_refl).
Defined.


(** ** Handles used after their teardown *)

Section AfterTeardown.

Variable orc : oracle.

(** Engine handles carry no liveness test.  After [destroy], [initialize]
    and [command] on the same handle still go to the engine, each of their
    native calls now carrying the null pointer. *)
Theorem engine_calls_after_destroy (w : world) (handle : nat)
    (h : bare_mpv_handle_t) (args : list string) :
  arraybuffers w !! handle = Some (Engine_block h) ->
  Z.of_nat (length args) < 2 ^ 32 - 1 ->
  exists w1,
    bare_mpv_destroy (call_info [JsArrayBuffer handle]) w = Some (NULL, w1) /\
    (exists status w2,
       bare_mpv_initialize orc (call_info [JsArrayBuffer handle]) w1
       = Some (Some (js_create_int32 status), w2) /\
       trace w2 = trace w1 ++ [ Mpv_set_option_string NULL "vo" "libmpv";
                                Mpv_set_option_string NULL "hwdec" "auto";
                                Mpv_set_option_string NULL "keep-open" "yes";
                                Mpv_initialize NULL ]) /\
    (exists status w2,
       bare_mpv_command orc
         (call_info [JsArrayBuffer handle; JsArray (map JsString args)]) w1
       = Some (Some (js_create_int32 status), w2) /\
       trace w2 = trace w1 ++ [Mpv_command NULL (map c_str args)]).
Proof.
  intros Hh Hlen. exists (after_destroy handle h w).
  assert (Hgone : arraybuffers (after_destroy handle h w) !! handle
                  = Some (Engine_block {| mpv := NULL |}))
    by (simpl; apply lookup_insert_eq).
  split; [|split].
  - destruct h as [m]. unfold bare_mpv_destroy. simpl.
    unfold bind, ret. rewrite (load_engine_at _ _ _ Hh). simpl.
    destruct m as [m|]; simpl.
    + unfold store_block. simpl. rewrite Hh. same_world.
    + same_world.
  - unfold bare_mpv_initialize. simpl.
    unfold bind, ret. rewrite (load_engine_at _ _ _ Hgone).
    unfold mpv_set_option_string, mpv_initialize, native.
    eexists; eexists. split; [reflexivity|].
    simpl. rewrite <- !app_assoc. reflexivity.
  - unfold bare_mpv_command. simpl.
    rewrite length_map. unfold to_uint32.
    rewrite (Z.mod_small (Z.of_nat (length args))) by lia.
    rewrite (Z.mod_small (Z.of_nat (length args) + 1)) by lia.
    rewrite Nat2Z.id. unfold bind at 1. unfold arg. cbn [nth].
    rewrite command_strings_of_strings by lia.
    rewrite drop_0, firstn_all.
    destruct (Z.leb_spec (Z.of_nat (length args) + 1) (Z.of_nat (length args)));
      [lia|].
    unfold bind, ret. rewrite (load_engine_at _ _ _ Hgone).
    unfold mpv_command, native.
    eexists; eexists. split; reflexivity.
Qed.

(** After [renderFree], [renderFrame] on the same handle answers [null]
    and leaves the world as it is: the freed context and buffer are never
    handed to the engine. *)
Theorem render_frame_after_free (w : world) (handle : nat) (r : bare_mpv_render_t) :
  arraybuffers w !! handle = Some (Render_block r) ->
  buffer_ok w r = true ->
  exists w1,
    bare_mpv_render_free (call_info [JsArrayBuffer handle]) w = Some (NULL, w1) /\
    bare_mpv_render_frame orc (call_info [JsArrayBuffer handle]) w1
    = Some (Some JsNull, w1).
Proof.
  intros Hh Hb. exists (after_free handle r w).
  split; [apply render_free_releases; assumption|].
  apply (render_frame_absent orc _ _ (freed r)).
  - simpl. apply lookup_insert_eq.
  - reflexivity.
Qed.

End AfterTeardown.

Lemma engine_calls_after_destroy_witness :
  arraybuffers live_world !! 0%nat = Some (Engine_block live_engine) /\
  exists w1,
    bare_mpv_destroy (call_info [engine_handle]) live_world = Some (NULL, w1) /\
    exists status w2,
      bare_mpv_command steady_engine
        (call_info [engine_handle; JsArray [JsString "stop"]]) w1
      = Some (Some (js_create_int32 status), w2) /\
      trace w2 = trace w1 ++ [Mpv_command NULL ["stop"%string]].
Proof.
  split; [reflexivity|].
  destruct (engine_calls_after_destroy steady_engine live_world 0 live_engine
              ["stop"%string] eq_refl eq_refl)
    as (w1 & Hdestroy & _ & Hcommand).
  exists w1. split; [exact Hdestroy | exact Hcommand].
Defined.

Lemma render_frame_after_free_witness :
  arraybuffers live_world !! 1%nat = Some (Render_block live_render) /\
  buffer_ok live_world live_render = true /\
  exists w1,
    bare_mpv_render_free (call_info [render_handle]) live_world = Some (NULL, w1) /\
    bare_mpv_render_frame steady_engine (call_info [render_handle]) w1
    = Some (Some JsNull, w1).
Proof.
  split; [reflexivity|]. split; [reflexivity|].
  exact (render_frame_after_free steady_engine live_world 1 live_render
           eq_refl eq_refl).
Defined.

(** ** The export object *)

Section Exports.

Variable js_create_function : string -> Z.

Lemma export_function_bound (name : string) (fn : export)
    (exports : gmap string export) (key : string) :
  EXPORT_FUNCTION js_create_function name fn exports !! key
  = if bool_decide (key = name) && (js_create_function name =? 0)
    then Some fn else exports !! key.
Proof.
  unfold EXPORT_FUNCTION, js_set_named_property.
  destruct (js_create_function name =? 0); case_bool_decide; subst; simpl;
    try reflexivity.
  - apply lookup_insert_eq.
  - apply lookup_insert_ne. congruence.
Qed.

(** The module binds each exported function under its own name, provided
    the runtime made the function object, and touches no other property of
    the export object: a name whose function object could not be made is
    left as it was, and the other names are bound all the same. *)
Theorem exports_bound (exports : gmap string export) :
  (forall fn,
     js_create_function (export_name fn) = 0 ->
     bare_mpv_exports js_create_function exports !! export_name fn = Some fn) /\
  (forall key,
     (forall fn, key = export_name fn -> js_create_function key <> 0) ->
     bare_mpv_exports js_create_function exports !! key = exports !! key).
Proof.
  split.
  - intros fn Hok. unfold bare_mpv_exports. cbv zeta.
    rewrite !export_function_bound.
    destruct fn; cbn [export_name] in *;
      repeat (rewrite bool_decide_eq_false_2 by discriminate; cbn [andb]);
      rewrite bool_decide_eq_true_2 by reflexivity; rewrite Hok; reflexivity.
  - intros key Hkey. unfold bare_mpv_exports. cbv zeta.
    rewrite !export_function_bound.
    assert (Hfail : forall fn,
      bool_decide (key = export_name fn) && (js_create_function (export_name fn) =? 0)
      = false).
    { intros fn. case_bool_decide as Hfn; [|reflexivity]. simpl.
      apply Z.eqb_neq. rewrite <- Hfn. apply (Hkey fn Hfn). }
    pose proof (Hfail create) as H0. pose proof (Hfail initialize) as H1.
    pose proof (Hfail destroy) as H2. pose proof (Hfail command) as H3.
    pose proof (Hfail getProperty) as H4. pose proof (Hfail setProperty) as H5.
    pose proof (Hfail renderCreate) as H6. pose proof (Hfail renderFrame) as H7.
    pose proof (Hfail renderFree) as H8. pose proof (Hfail renderUpdate) as H9.
    clear Hfail. cbn [export_name] in *.
    rewrite H9, H8, H7, H6, H5, H4, H3, H2, H1, H0. reflexivity.
Qed.

End Exports.

Lemma exports_bound_witness :
  bare_mpv_exports (fun name => if String.eqb name "command" then -1 else 0) ∅
    !! "renderFree"%string = Some renderFree /\
  bare_mpv_exports (fun name => if String.eqb name "command" then -1 else 0) ∅
    !! "command"%string = None.
Proof.
  split.
  - exact (proj1 (exports_bound
                    (fun name => if String.eqb name "command" then -1 else 0) ∅)
             renderFree eq_refl).
  - rewrite (proj2 (exports_bound
                      (fun name => if String.eqb name "command" then -1 else 0) ∅)
               "command"%string); [reflexivity|].
    intros fn _. discriminate.
Defined.

(** ** What the engine operations leave alone *)

Section Frames.

Variable orc : oracle.

(** [initialize], [command], [getProperty], [setProperty] and
    [renderUpdate] only talk to the engine: they change no array buffer
    and no allocation, and they throw nothing. *)
Theorem engine_calls_touch_no_memory (name : export) (info : js_callback_info_t)
    (w : world) (res : js_result) (w' : world) :
  In name [initialize; command; getProperty; setProperty; renderUpdate] ->
  exported orc name info w = Some (res, w') ->
  arraybuffers w' = arraybuffers w /\ heap w' = heap w /\ thrown w' = thrown w.
Proof.
  intros Hname H. simpl in Hname.
  destruct Hname as [<-|[<-|[<-|[<-|[<-|[]]]]]]; simpl in H.
  - unfold bare_mpv_initialize in H. run_cases; auto.
  - unfold bare_mpv_command in H. unfold bind at 1 in H.
    destruct (js_get_callback_info info 2) as [err argv].
    destruct (nonzero err); [unfold ret in H; simplify_eq; auto|].
    destruct (js_get_arraybuffer_info _) as [err1 handle].
    destruct (nonzero err1); [unfold ret in H; simplify_eq; auto|].
    destruct (js_get_array_length _) as [err2 cmd_len].
    destruct (nonzero err2); [unfold ret in H; simplify_eq; auto|].
    unfold bind at 1 in H.
    destruct (command_strings _ _ _ w) as [[args w1]|] eqn:Hargs; [|discriminate].
    apply command_strings_pure in Hargs. subst w1.
    run_cases; auto.
  - unfold bare_mpv_get_property in H. run_cases; auto.
  - unfold bare_mpv_set_property in H. run_cases; auto.
  - unfold bare_mpv_render_update in H. run_cases; auto.
Qed.

(** [command] asks for the length of its second argument before anything
    else is read from it: when that is no array the call ends with a null
    pointer, no native call made. *)
Theorem command_without_array (handle : nat) (v : js_value) (w : world) :
  (forall elems, v <> JsArray elems) ->
  bare_mpv_command orc (call_info [JsArrayBuffer handle; v]) w = Some (NULL, w).
Proof.
  intros Hv. unfold bare_mpv_command. simpl.
  destruct v; try reflexivity. exfalso. apply (Hv elems). reflexivity.
Qed.

Lemma destroy_tears_down (w : world) (handle : nat) (h : bare_mpv_handle_t) :
  arraybuffers w !! handle = Some (Engine_block h) ->
  bare_mpv_destroy (call_info [JsArrayBuffer handle]) w
  = Some (NULL, after_destroy handle h w).
Proof.
  intros Hh. destruct h as [m]. unfold bare_mpv_destroy. simpl.
  unfold bind, ret. rewrite (load_engine_at _ _ _ Hh). simpl.
  destruct m as [m|]; simpl.
  - unfold store_block. simpl. rewrite Hh. same_world.
  - same_world.
Qed.

(** [destroy] knows nothing of the render handles made on its engine: it
    leaves them as they are, context pointer included, and a [renderFrame]
    that follows still hands that context to the engine's render call. *)
Theorem destroy_leaves_render_handles (w : world) (engine : nat)
    (h : bare_mpv_handle_t) (render : nat) (r : bare_mpv_render_t) :
  arraybuffers w !! engine = Some (Engine_block h) ->
  arraybuffers w !! render = Some (Render_block r) ->
  buffer_ok w r = true ->
  absent r = false ->
  exists w1,
    bare_mpv_destroy (call_info [JsArrayBuffer engine]) w = Some (NULL, w1) /\
    arraybuffers w1 !! render = Some (Render_block r) /\
    heap w1 = heap w /\
    exists res w2,
      bare_mpv_render_frame orc (call_info [JsArrayBuffer render]) w1
      = Some (res, w2) /\
      trace w2 = trace w1 ++ [render_call r].
Proof.
  intros He Hr Hok Hpresent. exists (after_destroy engine h w).
  assert (Hkept : arraybuffers (after_destroy engine h w) !! render
                  = Some (Render_block r)).
  { simpl. rewrite lookup_insert_ne; [exact Hr|]. intros ->. congruence. }
  split; [apply destroy_tears_down; exact He|].
  split; [exact Hkept|]. split; [reflexivity|].
  assert (Hok1 : buffer_ok (after_destroy engine h w) r = true) by exact Hok.
  rewrite (render_frame_eq orc _ _ _ Hkept Hok1 Hpresent).
  pose proof (rendered_trace orc (after_destroy engine h w) r
                (absent_buffer r Hpresent)) as Htrace.
  destruct (fst (render_answer orc _ r) <? 0).
  - eexists; eexists. split; [reflexivity | exact Htrace].
  - destruct (nonzero (rt_create_arraybuffer _ _ _)).
    + eexists; eexists. split; [reflexivity | exact Htrace].
    + eexists; eexists. split; [reflexivity|]. unfold framed. simpl. exact Htrace.
Qed.

End Frames.

Lemma engine_calls_touch_no_memory_witness :
  In setProperty [initialize; command; getProperty; setProperty; renderUpdate] /\
  exists w',
    exported steady_engine setProperty
      (call_info [engine_handle; JsString "pause"; JsBoolean true]) live_world
    = Some (Some (js_create_int32 0), w') /\
    arraybuffers w' = arraybuffers live_world /\ heap w' = heap live_world.
Proof.
  assert (Hin : In setProperty
                  [initialize; command; getProperty; setProperty; renderUpdate])
    by (simpl; tauto).
  assert (Hrun : exists w',
    exported steady_engine setProperty
      (call_info [engine_handle; JsString "pause"; JsBoolean true]) live_world
    = Some (Some (js_create_int32 0), w'))
    by (eexists; vm_compute; reflexivity).
  split; [exact Hin|]. destruct Hrun as (w' & Hrun). exists w'.
  split; [exact Hrun|].
  destruct (engine_calls_touch_no_memory steady_engine _ _ _ _ _ Hin Hrun)
    as (Hab & Hheap & _).
  split; [exact Hab | exact Hheap].
Defined.

Lemma command_without_array_witness :
  (forall elems, JsString "stop" <> JsArray elems) /\
  bare_mpv_command steady_engine (call_info [engine_handle; JsString "stop"]) live_world
  = Some (NULL, live_world).
Proof.
  split; [discriminate|].
  apply (command_without_array steady_engine 0 (JsString "stop") live_world).
  discriminate.
Defined.

Lemma destroy_leaves_render_handles_witness :
  arraybuffers live_world !! 0%nat = Some (Engine_block live_engine) /\
  arraybuffers live_world !! 1%nat = Some (Render_block live_render) /\
  buffer_ok live_world live_render = true /\
  absent live_render = false /\
  exists w1,
    bare_mpv_destroy (call_info [engine_handle]) live_world = Some (NULL, w1) /\
    arraybuffers w1 !! 1%nat = Some (Render_block live_render) /\
    exists res w2,
      bare_mpv_render_frame steady_engine (call_info [render_handle]) w1
      = Some (res, w2) /\
      trace w2 = trace w1 ++ [render_call live_render].
Proof.
  split; [reflexivity|]. split; [reflexivity|]. split; [reflexivity|].
  split; [reflexivity|].
  destruct (destroy_leaves_render_handles steady_engine live_world 0 live_engine
              1 live_render eq_refl eq_refl eq_refl eq_refl)
    as (w1 & Hdestroy & Hkept & _ & Hframe).
  exists w1. split; [exact Hdestroy|]. split; [exact Hkept | exact Hframe].
Defined.
